(** * RRC screening chat client: model and verified properties

    The repository holds two front ends for the screening conversation:
    a plain-script client that drives the DOM directly and a React client
    built from a [useChat] hook, a [ChatInterface] component and four form
    components, plus the wire types they share and the session table.
    The conversation engine behind them (router, eligibility rules,
    session store) is not among these files; where a property speaks of
    it, the part is modelled from the specification and says so.

    Strings are sequences of code units below 256, so a script string is a
    [string] here.  Objects used as maps from field names
    ([Record<string, T>]) are [gmap]s of their own properties, read
    through [JsObject.get] where the prototype chain matters; a JSON
    object keeps its properties as an association list.  A reply is a
    value of the declared response type; the code does not validate it.
    An [async] function is split at its [await] into the half that may
    issue a request and the half that handles the outcome. *)

From Stdlib Require Import Ascii String ZArith.
From stdpp Require Import base decidable option list strings gmap.

Local Open Scope string_scope.
Local Open Scope list_scope.

(** ** Script-level string primitives *)

Module Js.

Definition chars (s : string) : list ascii := list_ascii_of_string s.
Definition str (l : list ascii) : string := string_of_list_ascii l.

(** [\d] without the unicode flag: the ten characters '0'..'9'. *)
Definition is_digit (c : ascii) : bool :=
  let n := nat_of_ascii c in (48 <=? n)%nat && (n <=? 57)%nat.

(** White space of [String.prototype.trim] in the range below 256:
    TAB, LF, VT, FF, CR, SP and NBSP. *)
Definition is_space (c : ascii) : bool :=
  let n := nat_of_ascii c in
  ((9 <=? n)%nat && (n <=? 13)%nat) || (n =? 32)%nat || (n =? 160)%nat.

Fixpoint drop_space (l : list ascii) : list ascii :=
  match l with
  | c :: l' => if is_space c then drop_space l' else l
  | [] => []
  end.

Definition trim (s : string) : string :=
  str (rev (drop_space (rev (drop_space (chars s))))).

(** Truthiness of a string: everything but the empty string. *)
Definition truthy (s : string) : bool :=
  match s with EmptyString => false | String _ _ => true end.

(** Truthiness of [string | null]. *)
Definition truthy_opt (o : option string) : bool :=
  match o with Some s => truthy s | None => false end.

(** [s.slice(a, b)] for [0 <= a <= b]. *)
Definition slice (a b : nat) (l : list ascii) : list ascii :=
  take (b - a) (drop a l).

(** [s.slice(a)] for [0 <= a]. *)
Definition slice_from (a : nat) (l : list ascii) : list ascii := drop a l.

Definition startsWith (s p : string) : bool := String.prefix p s.

(** A non-null array that is not empty: [xs && xs.length > 0]. *)
Definition nonempty {A} (o : option (list A)) : bool :=
  match o with Some (_ :: _) => true | _ => false end.

(** [c && xs] as a condition that also hands over [xs]: an array is
    truthy whenever it is not null, empty or not. *)
Definition when {A} (c : bool) (o : option A) : option A :=
  if c then o else None.

(** [s.replace(/\D/g, '')] *)
Definition strip_non_digits (l : list ascii) : list ascii :=
  List.filter is_digit l.

End Js.

(** ** Plain objects and the prototype chain *)

Module JsObject.

(** The properties that every plain object inherits from
    [Object.prototype], each with the [length] of its value: the number
    of parameters of the inherited function.  [__proto__] reads as the
    prototype object itself, which has no [length]. *)
Definition prototype : list (string * option nat) :=
  [("constructor", Some 1%nat); ("__defineGetter__", Some 2%nat);
   ("__defineSetter__", Some 2%nat); ("hasOwnProperty", Some 1%nat);
   ("__lookupGetter__", Some 1%nat); ("__lookupSetter__", Some 1%nat);
   ("isPrototypeOf", Some 1%nat); ("propertyIsEnumerable", Some 1%nat);
   ("toString", Some 0%nat); ("valueOf", Some 0%nat); ("__proto__", None);
   ("toLocaleString", Some 0%nat)].

Fixpoint inherited_length (k : string) (table : list (string * option nat))
  : option (option nat) :=
  match table with
  | [] => None
  | (k', len) :: rest => if String.eqb k k' then Some len else inherited_length k rest
  end.

(** The name is one that [Object.prototype] defines. *)
Definition inherited (k : string) : bool :=
  match inherited_length k prototype with Some _ => true | None => false end.

(** What the read [o[k]] of a plain object finds: the object's own
    property, else the inherited one (a function, or the prototype
    object; truthy, and neither an array nor a string), else undefined. *)
Inductive read (A : Type) : Type :=
| Own (a : A)
| Inherited (len : option nat)
| Undefined.

Arguments Own {A} a.
Arguments Inherited {A} len.
Arguments Undefined {A}.

Definition get {A} (o : gmap string A) (k : string) : read A :=
  match o !! k with
  | Some a => Own a
  | None =>
      match inherited_length k prototype with
      | Some len => Inherited len
      | None => Undefined
      end
  end.

End JsObject.

(** ** Wire types (types/chat) *)

(** JSON values: the body of a request, a stored state document. *)
#[warnings="-register-all"]
Inductive json : Type :=
| JNull
| JBool (b : bool)
| JStr (s : string)
| JArr (items : list json)
| JObj (props : list (string * json)).

Module Json.

Definition keys (v : json) : list string :=
  match v with JObj props => props.*1 | _ => [] end.

End Json.

Module FieldDescriptor.

Record t : Type := mk {
  name : string;
  type : string;
  label : string;
  options : option (list string)   (* [options?: string[]] *)
}.

End FieldDescriptor.

(** ["text" | "form" | "end"] *)
Inductive ResponseType : Type := RText | RForm | REnd.

Module ResponseType.


Definition eqb (a b : ResponseType) : bool :=
  match a, b with
  | RText, RText | RForm, RForm | REnd, REnd => true
  | _, _ => false
  end.

End ResponseType.

Module ChatResponse.

Record t : Type := mk {
  session_id : string;
  message : string;
  type : ResponseType;
  step : string;
  field : option string;
  fields : option (list FieldDescriptor.t);
  options : option (list string);
  done : bool
}.

End ChatResponse.

(** The interface declarations themselves, property by property. *)
Module Declared.

#[warnings="-register-all"]
Inductive ty : Type :=
| TString
| TBoolean
| TNull
| TLiteral (s : string)
| TArray (elt : ty)
| TInterface (name : string)
| TUnion (alternatives : list ty).

Record property : Type := mkProperty {
  prop_name : string;
  prop_type : ty;
  optional : bool      (* declared with [?] *)
}.

(** [export interface FieldDescriptor] *)
Definition FieldDescriptor : list property :=
  [mkProperty "name" TString false;
   mkProperty "type" TString false;
   mkProperty "label" TString false;
   mkProperty "options" (TArray TString) true].

(** [export interface ChatResponse] *)
Definition ChatResponse : list property :=
  [mkProperty "session_id" TString false;
   mkProperty "message" TString false;
   mkProperty "type" (TUnion [TLiteral "text"; TLiteral "form"; TLiteral "end"]) false;
   mkProperty "step" TString false;
   mkProperty "field" (TUnion [TString; TNull]) false;
   mkProperty "fields" (TUnion [TArray (TInterface "FieldDescriptor"); TNull]) false;
   mkProperty "options" (TUnion [TArray TString; TNull]) false;
   mkProperty "done" TBoolean false].



End Declared.

Inductive Role : Type := User | Assistant.

(** A chat bubble.  Its [id] and [timestamp] are read from the clock and
    take no part in any decision, so only role and content are kept. *)
Record Message : Type := mkMessage { role : Role; content : string }.

(** A submitted value: a string, or the array of strings of a multi-select. *)
Inductive FormValue : Type :=
| FStr (s : string)
| FArr (items : list string).

(** The [message] of a turn request: raw text, or the JSON text of a
    field map.  The field map stands for its [JSON.stringify] image. *)
Inductive Payload : Type :=
| Plain (text : string)
| FieldMap (data : gmap string FormValue).

Module SessionRequest.
Record t : Type := mk { study_id : string }.
(** [JSON.stringify({ study_id })], before it is printed. *)
Definition to_json (r : t) : json := JObj [("study_id", JStr (study_id r))].
End SessionRequest.

Module ChatRequest.
Record t : Type := mk { session_id : string; message : Payload }.
End ChatRequest.

(** A [fetch] call: POST to a path with a body. *)
Inductive Request : Type :=
| PostSession (body : json)
| PostChat (body : ChatRequest.t).

(** ** lib/api *)

Module Api.

Definition createSession (studyId : string) : Request :=
  PostSession (SessionRequest.to_json (SessionRequest.mk studyId)).

Definition sendChatMessage (sessionId : string) (message : Payload) : Request :=
  PostChat (ChatRequest.mk sessionId message).

End Api.

(** What an awaited call comes back with: the parsed response, or a throw. *)
Inductive Outcome : Type :=
| Resolved (response : ChatResponse.t)
| Rejected.

(** ** hooks/useChat *)

Module UseChat.

Definition STUDY_ID : string := "zyn".

Record state : Type := mk {
  messages : list Message;
  sessionId : option string;
  isLoading : bool;
  currentStep : string;
  responseType : ResponseType;
  fields : option (list FieldDescriptor.t);
  options : option (list string);
  isDone : bool
}.

(** The [useState] initial values. *)
Definition initial : state :=
  mk [] None false "" RText None None false.

Definition setIsLoading (b : bool) (st : state) : state :=
  mk (messages st) (sessionId st) b (currentStep st) (responseType st)
     (fields st) (options st) (isDone st).

Definition addMessage (r : Role) (c : string) (st : state) : state :=
  mk (messages st ++ [mkMessage r c]) (sessionId st) (isLoading st)
     (currentStep st) (responseType st) (fields st) (options st) (isDone st).

Definition handleResponse (response : ChatResponse.t) (st : state) : state :=
  let st' :=
    mk (messages st)
       (Some (ChatResponse.session_id response))
       (isLoading st)
       (ChatResponse.step response)
       (ChatResponse.type response)
       (ChatResponse.fields response)
       (ChatResponse.options response)
       (ChatResponse.done response) in
  if Js.truthy (ChatResponse.message response)
  then addMessage Assistant (ChatResponse.message response) st'
  else st'.

(** An async callback runs in two halves: up to its [await], where it may
    issue a request, and from the [await] to the end of [finally]. *)

(** [initSession], first half. *)
Definition initSession_begin (st : state) : state * option Request :=
  (setIsLoading true st, Some (Api.createSession STUDY_ID)).

Definition initSession_end (o : Outcome) (st : state) : state :=
  setIsLoading false
    match o with
    | Resolved response => handleResponse response st
    | Rejected =>
        addMessage Assistant
          "Sorry, there was an error connecting. Please refresh the page to try again." st
    end.

(** The guard shared by [sendMessage] and [submitForm]. *)
Definition blocked (st : state) : bool :=
  negb (Js.truthy_opt (sessionId st)) || isLoading st || isDone st.

Definition sendMessage_begin (content : string) (st : state)
  : state * option Request :=
  match sessionId st with
  | Some sid =>
      if blocked st then (st, None)
      else (setIsLoading true (addMessage User content st),
            Some (Api.sendChatMessage sid (Plain content)))
  | None => (st, None)
  end.

Definition sendMessage_end (o : Outcome) (st : state) : state :=
  setIsLoading false
    match o with
    | Resolved response => handleResponse response st
    | Rejected =>
        addMessage Assistant "Sorry, there was an error. Please try again." st
    end.

(** The text shown for a submitted form, one line per entry.  No decision
    depends on it; a map does not keep the order in which the object got
    its keys, so the lines come in the map's order.  The line list is
    empty only for the empty object, whose JSON text is the fallback. *)
Definition displayLine (kv : string * FormValue) : string :=
  kv.1 +:+ ": " +:+
  match kv.2 with
  | FStr s => s
  | FArr items => String.concat ", " items
  end.

Definition displayMessage (formData : gmap string FormValue) : string :=
  String.concat (String (ascii_of_nat 10) "") (displayLine <$> map_to_list formData).

Definition submitForm_begin (formData : gmap string FormValue) (st : state)
  : state * option Request :=
  match sessionId st with
  | Some sid =>
      if blocked st then (st, None)
      else
        let shown :=
          if Js.truthy (displayMessage formData) then displayMessage formData
          else "{}" in
        (setIsLoading true (addMessage User shown st),
         Some (Api.sendChatMessage sid (FieldMap formData)))
  | None => (st, None)
  end.

Definition submitForm_end := sendMessage_end.

(** The hook as a machine, for courses of events in which every call is
    made by the render that has seen what the previous event left: the
    guard is then evaluated on the current state, and keeps a second
    call from being issued while one is awaited.  ([UseChatRender] has
    the call made by an earlier render.)  [pending] names the call that
    is awaited, if any; a reply can only arrive for an awaited call. *)
Inductive call : Type := InitCall | TurnCall.

Inductive event : Type :=
| SendMessage (content : string)
| SubmitForm (formData : gmap string FormValue)
| Reply (o : Outcome).

Record machine : Type := mkMachine { hook : state; pending : option call }.

(** The mount effect runs [initSession] once. *)
Definition mount : machine * option Request :=
  let '(st, rq) := initSession_begin initial in (mkMachine st (Some InitCall), rq).

Definition awaiting (m : machine) (rq : option Request) : option call :=
  match rq with Some _ => Some TurnCall | None => pending m end.

Definition react (m : machine) (e : event) : machine * option Request :=
  match e with
  | SendMessage content =>
      let '(st, rq) := sendMessage_begin content (hook m) in
      (mkMachine st (awaiting m rq), rq)
  | SubmitForm formData =>
      let '(st, rq) := submitForm_begin formData (hook m) in
      (mkMachine st (awaiting m rq), rq)
  | Reply o =>
      match pending m with
      | Some InitCall => (mkMachine (initSession_end o (hook m)) None, None)
      | Some TurnCall => (mkMachine (sendMessage_end o (hook m)) None, None)
      | None => (m, None)
      end
  end.

(** Run a sequence of events from a machine; the requests issued are
    collected in order. *)
Fixpoint run (m : machine) (es : list event) : machine * list Request :=
  match es with
  | [] => (m, [])
  | e :: es' =>
      let '(m', rq) := react m e in
      let '(m'', rqs) := run m' es' in
      (m'', option_list rq ++ rqs)
  end.

End UseChat.

(** ** components/IdentityForm *)

Module IdentityForm.
Import Js.

Definition dash : list ascii := ["-"%char].

(** The three returns of [formatPhone], on the digits already extracted. *)
Definition group (digits : list ascii) : list ascii :=
  if (length digits <=? 3)%nat then digits
  else if (length digits <=? 6)%nat then
    slice 0 3 digits ++ dash ++ slice_from 3 digits
  else
    slice 0 3 digits ++ dash ++ slice 3 6 digits ++ dash ++ slice 6 10 digits.

Definition formatPhone (value : string) : string :=
  let digits := strip_non_digits (chars value) in
  str (group digits).

(** The digits that a string contains, in order. *)
Definition digits_of (s : string) : list ascii := strip_non_digits (chars s).

(** The format as the documentation words it: the first ten digits, cut
    into blocks of three, three and four, the non-empty blocks joined by
    a dash. *)
Fixpoint join_dash (blocks : list (list ascii)) : list ascii :=
  match blocks with
  | [] => []
  | [b] => b
  | b :: rest => b ++ dash ++ join_dash rest
  end.

Definition blocks_3_3_4 (digits : list ascii) : list (list ascii) :=
  let d := take 10 digits in
  List.filter (fun b => negb (Nat.eqb (length b) 0))
    [take 3 d; take 3 (drop 3 d); drop 6 d].

Definition phone_layout (digits : list ascii) : string :=
  str (join_dash (blocks_3_3_4 digits)).

Record state : Type := mk { email : string; phone : string }.

Definition initial : state := mk "" "".

(** [onChange] of the two inputs. *)
Definition setEmail (value : string) (st : state) : state := mk value (phone st).

Definition setPhone (value : string) (st : state) : state :=
  mk (email st) (formatPhone value).

Definition handleSubmit (st : state) : option (gmap string FormValue) :=
  if truthy (email st) && truthy (phone st)
  then Some (<["email" := FStr (email st)]> (<["phone" := FStr (phone st)]> ∅))
  else None.

End IdentityForm.

(** ** components/ChatInput *)

Module ChatInput.

(** [handleSend]: what is passed to [onSend], if anything. *)
Definition handleSend (input : string) (disabled : bool) : option string :=
  if Js.truthy (Js.trim input) && negb disabled
  then Some (Js.trim input)
  else None.

End ChatInput.

(** ** components/PrescreenForm *)

Module PrescreenForm.

(** [handleSubmit] with the current radio selection. *)
Definition handleSubmit (selected : option string) : option string :=
  match selected with
  | Some s => if Js.truthy s then Some s else None
  | None => None
  end.

End PrescreenForm.

(** ** components/ProfileForm *)

Module ProfileForm.

(** [handleChange]: [{ ...prev, [name]: value }] *)
Definition handleChange (name value : string) (formData : gmap string string)
  : gmap string string :=
  <[name := value]> formData.

(** [formData[field.name]?.trim()] as a condition.  (Under a field name
    that [Object.prototype] defines and the data lacks, the read finds a
    function and calling its missing [trim] raises; nothing is submitted
    then either.) *)
Definition filled (formData : gmap string string) (f : FieldDescriptor.t) : bool :=
  match formData !! FieldDescriptor.name f with
  | Some v => Js.truthy (Js.trim v)
  | None => false
  end.

Definition handleSubmit (fields : list FieldDescriptor.t)
    (formData : gmap string string) : option (gmap string FormValue) :=
  if forallb (filled formData) fields
  then Some (FStr <$> formData)
  else None.

End ProfileForm.

(** ** components/SchedulingForm *)

Module SchedulingForm.

(** [prev[fieldName] || []], for a field name under which a box can be
    clicked.  Such a name is none that [Object.prototype] defines: under
    one of those the form draws no box or fails while drawing (see
    [render]), so [handleToggle] is never called with it. *)
Definition current (selections : gmap string (list string)) (fieldName : string)
  : list string :=
  default [] (selections !! fieldName).

Definition handleToggle (fieldName option : string)
    (selections : gmap string (list string)) : gmap string (list string) :=
  let cur := current selections fieldName in
  if bool_decide (option ∈ cur)
  then <[fieldName := filter (λ o, o ≠ option) cur]> selections
  else <[fieldName := cur ++ [option]]> selections.

(** [(selections[name] || []).length > 0].  [selections] is a plain
    object and the read goes through its prototype chain: an inherited
    value is truthy, so it is not replaced by [[]], and it is its own
    [length] that is compared with 0 (undefined compares false). *)
Definition has_selection (selections : gmap string (list string)) (name : string)
  : bool :=
  match JsObject.get selections name with
  | JsObject.Own l => (0 <? length l)%nat
  | JsObject.Inherited (Some n) => (0 <? n)%nat
  | JsObject.Inherited None => false
  | JsObject.Undefined => false
  end.

(** [fields.every(field => (selections[field.name] || []).length > 0)] *)
Definition isValid (fields : list FieldDescriptor.t)
    (selections : gmap string (list string)) : bool :=
  forallb (λ f, has_selection selections (FieldDescriptor.name f)) fields.

Definition handleSubmit (fields : list FieldDescriptor.t)
    (selections : gmap string (list string)) : option (gmap string FormValue) :=
  if isValid fields selections
  then Some (FArr <$> selections)
  else None.

(** [(selections[name] || []).includes(option)]; [None] is the TypeError
    raised when the read finds an inherited value, which has no
    [includes]. *)
Definition isSelected (selections : gmap string (list string)) (name option : string)
  : Datatypes.option bool :=
  match JsObject.get selections name with
  | JsObject.Own l => Some (bool_decide (option ∈ l))
  | JsObject.Inherited _ => None
  | JsObject.Undefined => Some false
  end.

(** What is drawn: per field its label and one check box per option
    ([field.options?.map]), each box ticked iff its option is selected;
    [None] when drawing raises. *)
Definition boxes (selections : gmap string (list string)) (f : FieldDescriptor.t)
  : option (list (string * bool)) :=
  mapM (λ o, (λ b, (o, b)) <$> isSelected selections (FieldDescriptor.name f) o)
    (default [] (FieldDescriptor.options f)).

Definition render (fields : list FieldDescriptor.t)
    (selections : gmap string (list string))
  : option (list (string * list (string * bool))) :=
  mapM (λ f, (λ bs, (FieldDescriptor.label f, bs)) <$> boxes selections f) fields.

(** An option is on offer under a field name when a field of that name
    lists it. *)
Definition offered (fields : list FieldDescriptor.t) (name option : string) : Prop :=
  ∃ f, f ∈ fields ∧ FieldDescriptor.name f = name
       ∧ option ∈ default [] (FieldDescriptor.options f).

(** A click on a drawn check box: a field of the form and one of the
    options listed for it. *)
Definition click (fields : list FieldDescriptor.t) (c : string * string) : Prop :=
  offered fields c.1 c.2.

(** The selections after a sequence of clicks, from the empty state. *)
Definition after_clicks (cs : list (string * string)) : gmap string (list string) :=
  foldl (λ sel c, handleToggle c.1 c.2 sel) ∅ cs.

(** The invariant of the selection state. *)
Definition tidy (fields : list FieldDescriptor.t)
    (selections : gmap string (list string)) : Prop :=
  ∀ name, NoDup (current selections name)
          ∧ ∀ o, o ∈ current selections name → offered fields name o.

End SchedulingForm.

(** ** components/ChatInterface *)

Module ChatInterface.

(** What [renderForm] returns; each form is shown with the callback it
    is given ([onFormSubmit] for field maps, [onSendMessage] for text). *)
Inductive form : Type :=
| IdentityFormEl
| PinInputEl
| SchedulingFormEl (fields : list FieldDescriptor.t)
| ProfileFormEl (fields : list FieldDescriptor.t)
| PrescreenFormEl (options : list string).

Definition renderForm (p : UseChat.state) : option form :=
  let currentStep := UseChat.currentStep p in
  let fields := UseChat.fields p in
  let options := UseChat.options p in
  if UseChat.isLoading p || negb (ResponseType.eqb (UseChat.responseType p) RForm)
  then None
  else if String.eqb currentStep "consent_given"
          || String.eqb currentStep "collecting_identity"
  then Some IdentityFormEl
  else if String.eqb currentStep "awaiting_pin"
  then Some PinInputEl
  else
  match Js.when (String.eqb currentStep "scheduling") fields with
  | Some fs => Some (SchedulingFormEl fs)
  | None =>
  match Js.when (Js.startsWith currentStep "collecting_group:") fields with
  | Some fs => Some (ProfileFormEl fs)
  | None =>
  match Js.when (Js.startsWith currentStep "prescreen:") options with
  | Some os => Some (PrescreenFormEl os)
  | None =>
  match Js.when (Js.nonempty fields) fields with
  | Some fs => Some (ProfileFormEl fs)
  | None =>
  match Js.when (Js.nonempty options) options with
  | Some os => Some (PrescreenFormEl os)
  | None => None
  end end end end end.

Definition showTextInput (p : UseChat.state) : bool :=
  ResponseType.eqb (UseChat.responseType p) RText
  && negb (UseChat.isDone p) && negb (UseChat.isLoading p).

End ChatInterface.

(** ** The plain-script client *)

Module Script.

(** Options for select-type fields. *)
Definition FIELD_OPTIONS : list (string * list string) :=
  [("gender", ["Male"; "Female"; "Non-binary"; "Prefer not to say"]);
   ("has_smartphone", ["Yes"; "No"]);
   ("closest_rrc_site", ["Raleigh"; "Charlotte"]);
   ("pregnant_or_nursing_or_planning", ["Yes"; "No"]);
   ("willing_urine_drug_screen", ["Yes"; "No"])].

(** The entry of the table under a name (its own property). *)
Fixpoint field_options (name : string) (table : list (string * list string))
  : option (list string) :=
  match table with
  | [] => None
  | (k, v) :: rest => if String.eqb name k then Some v else field_options name rest
  end.

(** A form control with what the participant has entered so far.  The
    [FIELD_WIDGETS] table only sets display attributes of text inputs. *)
Inductive element : Type :=
| CheckboxGroup (boxes : list (string * bool))    (* value, checked *)
| Select (choices : list string) (value : string)
| Input (value : string).

(** The control made for a field whose name is none that
    [Object.prototype] defines.  (Under such a name the read of the
    option table finds an inherited value, on which [forEach] is
    missing, and the function raises unless the field is a multi-select
    with options.) *)
Definition createFieldInput (f : FieldDescriptor.t) : element :=
  let options := field_options (FieldDescriptor.name f) FIELD_OPTIONS in
  if String.eqb (FieldDescriptor.type f) "multi_select"
     && Js.nonempty (FieldDescriptor.options f)
  then CheckboxGroup ((λ opt, (opt, false)) <$> default [] (FieldDescriptor.options f))
  else if String.eqb (FieldDescriptor.type f) "select" || bool_decide (is_Some options)
  then Select (default [] options) ""
  else Input "".

(** [inputs[f.name] = createFieldInput(f)] for each field in turn: the
    object that the submit handler reads.  The page shows a control for
    every field of the list, also where two share a name. *)
Definition make_inputs (fields : list FieldDescriptor.t) : gmap string element :=
  foldl (λ inputs f, <[FieldDescriptor.name f := createFieldInput f]> inputs) ∅ fields.

(** Values of the checked boxes of a group. *)
Definition checked (boxes : list (string * bool)) : list string :=
  (List.filter snd boxes).*1.

Definition value_of (el : element) : string :=
  match el with
  | Select _ v | Input v => v
  | CheckboxGroup _ => ""
  end.

(** One round of the [forEach] in the submit handler of a multi-field
    form: the entry written to [data], if any, and whether the control
    counts as filled. *)
Definition collect (el : element) : option FormValue * bool :=
  match el with
  | CheckboxGroup boxes =>
      (Some (FArr (checked boxes)), negb (Nat.eqb (length (checked boxes)) 0))
  | _ =>
      if negb (Js.truthy (value_of el)) || negb (Js.truthy (Js.trim (value_of el)))
      then (None, false)
      else (Some (FStr (Js.trim (value_of el))), true)
  end.

(** The submit handler of a multi-field form: the text handed to
    [sendMessage], if the handler gets that far. *)
Definition multiFieldSubmit (inputs : gmap string element) : option Payload :=
  let data := omap (λ el, (collect el).1) inputs in
  let allFilled := bool_decide (map_Forall (λ _ el, (collect el).2 = true) inputs) in
  if allFilled then Some (FieldMap data) else None.

(** The submit handler of the radio form of [addFormMessage]. *)
Definition radioSubmit (selected : option string) : option Payload :=
  Plain <$> selected.

(** The submit handler of the single input of [addFormMessage]. *)
Definition inputSubmit (value : string) : option Payload :=
  if Js.truthy (Js.trim value) then Some (Plain (Js.trim value)) else None.

(** What is appended to the message list. *)
Inductive entry : Type :=
| Said (r : Role) (text : Payload)
| MultiFieldForm (text : string) (inputs : gmap string element)
| RadioForm (text : string) (options : list string)
| InputForm (text : string) (field : string)
| BareForm (text : string).

Record state : Type := mk {
  sessionId : option string;
  conversationDone : bool;
  log : list entry;
  inputEnabled : bool;
  typing : bool
}.

Definition initial : state := mk None false [] true false.

Definition append (e : entry) (st : state) : state :=
  mk (sessionId st) (conversationDone st) (log st ++ [e]) (inputEnabled st) (typing st).

Definition addMessage (r : Role) (text : Payload) : state → state := append (Said r text).

Definition setInputEnabled (b : bool) (st : state) : state :=
  mk (sessionId st) (conversationDone st) (log st) b (typing st).

Definition showTyping (b : bool) (st : state) : state :=
  mk (sessionId st) (conversationDone st) (log st) (inputEnabled st) b.

Definition setSessionId (sid : string) (st : state) : state :=
  mk (Some sid) (conversationDone st) (log st) (inputEnabled st) (typing st).

Definition setDone (st : state) : state :=
  mk (sessionId st) true (log st) (inputEnabled st) (typing st).

Definition addFormMessage (text : string) (field : option string)
    (options : option (list string)) : entry :=
  if Js.nonempty options then RadioForm text (default [] options)
  else match field with
       | Some f => if Js.truthy f then InputForm text f else BareForm text
       | None => BareForm text
       end.

Definition is_form (data : ChatResponse.t) : bool :=
  ResponseType.eqb (ChatResponse.type data) RForm.

(** The page after a response is rendered to the end. *)
Definition renderResponse (data : ChatResponse.t) (st : state) : state :=
  let st1 :=
    if is_form data && Js.nonempty (ChatResponse.fields data)
    then append (MultiFieldForm (ChatResponse.message data)
                   (make_inputs (default [] (ChatResponse.fields data)))) st
    else if is_form data
            && (Js.truthy_opt (ChatResponse.field data)
                || bool_decide (is_Some (ChatResponse.options data)))
    then append (addFormMessage (ChatResponse.message data)
                   (ChatResponse.field data) (ChatResponse.options data)) st
    else addMessage Assistant (Plain (ChatResponse.message data)) st in
  if ChatResponse.done data
  then setInputEnabled false (setDone st1)
  else setInputEnabled true st1.

Definition startSession_begin : Request :=
  PostSession (JObj [("study_id", JStr "zyn")]).

Definition startSession_end (o : Outcome) (st : state) : state :=
  match o with
  | Resolved data => renderResponse data (setSessionId (ChatResponse.session_id data) st)
  | Rejected =>
      addMessage Assistant
        (Plain "Unable to connect to the server. Please try again later.") st
  end.

(** [!text.trim()].  The JSON text of a field map opens with a brace, so
    it is never blank. *)
Definition blank (text : Payload) : bool :=
  match text with
  | Plain s => negb (Js.truthy (Js.trim s))
  | FieldMap _ => false
  end.

Definition sendMessage_begin (text : Payload) (st : state) : state * option Request :=
  match sessionId st with
  | Some sid =>
      if negb (Js.truthy sid) || conversationDone st || blank text
      then (st, None)
      else (showTyping true (setInputEnabled false (addMessage User text st)),
            Some (PostChat (ChatRequest.mk sid text)))
  | None => (st, None)
  end.

Definition sendMessage_end (o : Outcome) (st : state) : state :=
  match o with
  | Resolved data => renderResponse data (showTyping false st)
  | Rejected =>
      setInputEnabled true
        (addMessage Assistant (Plain "Something went wrong. Please try again.")
           (showTyping false st))
  end.

(** The page as a machine: [startSession] runs at load; any number of
    turn calls may be awaited, and a reply arrives only for an awaited
    call. *)
Inductive event : Type :=
| SendMessage (text : Payload)
| StartReply (o : Outcome)
| TurnReply (o : Outcome).

Record machine : Type := mkMachine {
  page : state;
  startPending : bool;
  turnsPending : nat;
  handled : list ChatResponse.t    (* the responses rendered so far *)
}.

Definition load : machine * Request :=
  (mkMachine initial true 0 [], startSession_begin).

Definition resolved (o : Outcome) : list ChatResponse.t :=
  match o with Resolved data => [data] | Rejected => [] end.

Definition react (m : machine) (e : event) : machine * option Request :=
  match e with
  | SendMessage text =>
      let '(st, rq) := sendMessage_begin text (page m) in
      (mkMachine st (startPending m)
         (match rq with Some _ => S (turnsPending m) | None => turnsPending m end)
         (handled m), rq)
  | StartReply o =>
      if startPending m
      then (mkMachine (startSession_end o (page m)) false (turnsPending m)
              (handled m ++ resolved o), None)
      else (m, None)
  | TurnReply o =>
      match turnsPending m with
      | S n => (mkMachine (sendMessage_end o (page m)) (startPending m) n
                  (handled m ++ resolved o), None)
      | O => (m, None)
      end
  end.

Fixpoint run (m : machine) (es : list event) : machine * list Request :=
  match es with
  | [] => (m, [])
  | e :: es' =>
      let '(m', rq) := react m e in
      let '(m'', rqs) := run m' es' in
      (m'', option_list rq ++ rqs)
  end.

End Script.

(** ** The session table (init.sql) *)

Module SessionTable.

Inductive sqltype : Type := VARCHAR (n : nat) | JSONB | TIMESTAMPTZ.

Inductive sqldefault : Type := NoDefault | DefaultNow.

Record column : Type := mkColumn {
  col_name : string;
  col_type : sqltype;
  primary_key : bool;
  not_null : bool;
  col_default : sqldefault
}.

(** [CREATE TABLE IF NOT EXISTS rrc_sessions (...)] *)
Definition rrc_sessions : list column :=
  [mkColumn "session_id" (VARCHAR 36) true false NoDefault;
   mkColumn "study_id" (VARCHAR 40) false true NoDefault;
   mkColumn "state" JSONB false true NoDefault;
   mkColumn "created_at" TIMESTAMPTZ false true DefaultNow;
   mkColumn "updated_at" TIMESTAMPTZ false true DefaultNow].

(** [CREATE INDEX ... ON rrc_sessions(updated_at)] *)
Definition idx_rrc_sessions_updated : list string := ["updated_at"].

(** A primary key is unique and not null. *)
Definition is_not_null (c : column) : bool := primary_key c || not_null c.

(** A row of the table: one value per column. *)
Record row : Type := mkRow {
  session_id : string;
  study_id : string;
  state : json;
  created_at : nat;
  updated_at : nat
}.

(** The primary-key constraint on a table content. *)
Definition key_unique (rows : list row) : Prop := NoDup (session_id <$> rows).

(** Modelled from the spec: the row of a session id, if the store has one
    ([SELECT ... WHERE session_id = sid]).  The store's code is kept
    outside the files at hand. *)
Fixpoint find (sid : string) (rows : list row) : option row :=
  match rows with
  | [] => None
  | r :: rest => if String.eqb (session_id r) sid then Some r else find sid rest
  end.

(** Modelled from the spec: overwriting the state of a stored session
    ([UPDATE ... SET state, updated_at WHERE session_id = sid]); the whole
    state value is replaced, never single fields of it. *)
Fixpoint update (sid : string) (doc : json) (now : nat) (rows : list row) : list row :=
  match rows with
  | [] => []
  | r :: rest =>
      if String.eqb (session_id r) sid
      then mkRow (session_id r) (study_id r) doc (created_at r) now :: update sid doc now rest
      else r :: update sid doc now rest
  end.

(** Modelled from the spec: the session store's [save(session_id, state)],
    which acknowledges every call, last write wins: the row is created on
    the first save and overwritten on every later one. *)
Definition save (sid study : string) (doc : json) (now : nat) (rows : list row)
  : list row :=
  match find sid rows with
  | Some _ => update sid doc now rows
  | None => rows ++ [mkRow sid study doc now now]
  end.

(** Modelled from the spec: the session store's [load(session_id)], the
    state or not-found. *)
Definition load (sid : string) (rows : list row) : option json :=
  state <$> find sid rows.

End SessionTable.

(** ** The eligibility engine *)

(** The engine is kept outside the files at hand; this module follows the
    specification's section on it, sentence by sentence. *)
Module Eligibility.

(** Modelled from the spec: the value of a profile field or of a prescreen
    answer, a number or a text. *)
Inductive value : Type :=
| VNum (n : Z)
| VStr (s : string).

(** Modelled from the spec: operator ∈ {eq, neq, lt, lte, gt, gte, in,
    not_in, range}. *)
Inductive operator : Type :=
| op_eq | op_neq | op_lt | op_lte | op_gt | op_gte | op_in | op_not_in | op_range.

(** Modelled from the spec: effect ∈ {include-required, exclude-if-matched}. *)
Inductive effect : Type := IncludeRequired | ExcludeIfMatched.

(** Modelled from the spec: a rule {field, operator, value(s), effect},
    with the reason code it gives when it disqualifies. *)
Record rule : Type := mkRule {
  field : string;
  op : operator;
  values : list value;
  rule_effect : effect;
  reason : string
}.

(** Modelled from the spec: the output {eligible | ineligible(reason) |
    undetermined(missing_fields)}. *)
Inductive outcome : Type :=
| Eligible
| Ineligible (reason : string)
| Undetermined (missing_fields : list string).

(** Modelled from the spec: equality of two field values. *)
Definition value_eqb (a b : value) : bool :=
  match a, b with
  | VNum x, VNum y => Z.eqb x y
  | VStr x, VStr y => String.eqb x y
  | _, _ => false
  end.

(** Modelled from the spec: an order comparison of a numeric field value
    with the rule's first value. *)
Definition num_rel (rel : Z → Z → bool) (a : value) (vs : list value) : bool :=
  match a, vs with
  | VNum x, VNum y :: _ => rel x y
  | _, _ => false
  end.

(** Modelled from the spec: the nine operators of a rule, applied to the
    value found for the rule's field. *)
Definition holds (o : operator) (a : value) (vs : list value) : bool :=
  match o with
  | op_eq => match vs with v :: _ => value_eqb a v | [] => false end
  | op_neq => match vs with v :: _ => negb (value_eqb a v) | [] => false end
  | op_lt => num_rel Z.ltb a vs
  | op_lte => num_rel Z.leb a vs
  | op_gt => num_rel Z.gtb a vs
  | op_gte => num_rel Z.geb a vs
  | op_in => existsb (value_eqb a) vs
  | op_not_in => negb (existsb (value_eqb a) vs)
  | op_range =>
      match a, vs with
      | VNum x, [VNum lo; VNum hi] => Z.leb lo x && Z.leb x hi
      | _, _ => false
      end
  end.

(** Modelled from the spec: the engine's input, the profile (a
    field-to-value mapping) and the prescreen answers (ordered). *)
Record input : Type := mkInput {
  profile : gmap string value;
  prescreen_answers : list (string * value)
}.

(** Modelled from the spec: the answer recorded for a prescreen question. *)
Fixpoint answer (k : string) (answers : list (string * value)) : option value :=
  match answers with
  | [] => None
  | (k', v) :: rest => if String.eqb k k' then Some v else answer k rest
  end.

(** Modelled from the spec: a rule's referenced field is looked up in the
    profile and then in the prescreen answers; it is absent when neither
    has it. *)
Definition lookup_field (i : input) (k : string) : option value :=
  match profile i !! k with
  | Some v => Some v
  | None => answer k (prescreen_answers i)
  end.

(** Modelled from the spec: the rule's condition is true of the
    participant (an include rule is then satisfied, an exclude rule
    matched). *)
Definition matches (i : input) (r : rule) : bool :=
  match lookup_field i (field r) with
  | Some a => holds (op r) a (values r)
  | None => false
  end.

(** Modelled from the spec: the rule's referenced field is absent. *)
Definition absent (i : input) (r : rule) : bool :=
  bool_decide (lookup_field i (field r) = None).

(** Modelled from the spec: the two effects as tests. *)
Definition is_include (r : rule) : bool :=
  match rule_effect r with IncludeRequired => true | ExcludeIfMatched => false end.

(** Modelled from the spec: the two effects as tests. *)
Definition is_exclude (r : rule) : bool := negb (is_include r).

(** Modelled from the spec: the fields that rules refer to and the input
    lacks, in rule order. *)
Definition missing_fields (i : input) (rules : list rule) : list string :=
  field <$> List.filter (absent i) rules.

(** Modelled from the spec: the first exclude-if-matched rule, in declared
    order, that matches. *)
Definition first_matching_exclude (i : input) (rules : list rule) : option rule :=
  List.find (λ r, is_exclude r && matches i r) rules.

(** Modelled from the spec: the first include-required rule, in declared
    order, left unsatisfied. *)
Definition first_failed_include (i : input) (rules : list rule) : option rule :=
  List.find (λ r, is_include r && negb (matches i r)) rules.

(** Modelled from the spec: the eligibility engine.  A rule whose field
    is absent makes the outcome undetermined and names the field; with
    every field present, the first matching exclude rule in declared
    order gives the reason of ineligibility; an unsatisfied include rule
    makes the participant ineligible too (the spec leaves that reason
    open; the rule's own is used); otherwise the participant is
    eligible. *)
Definition evaluate (i : input) (rules : list rule) : outcome :=
  match missing_fields i rules with
  | (_ :: _) as missing => Undetermined missing
  | [] =>
      match first_matching_exclude i rules with
      | Some r => Ineligible (reason r)
      | None =>
          match first_failed_include i rules with
          | Some r => Ineligible (reason r)
          | None => Eligible
          end
      end
  end.

End Eligibility.

(** ** Vocabulary of the statements *)

(** The value that the documentation promises for a control of a
    multi-field form. *)
Definition promised (el : Script.element) : FormValue :=
  match el with
  | Script.CheckboxGroup boxes => FArr (Script.checked boxes)
  | _ => FStr (Js.trim (Script.value_of el))
  end.

(** The node ids of the catalog. *)
Definition catalog : list string :=
  ["greeting"; "consent"; "identity_collection"; "lead_lookup"; "create_lead";
   "pin_auth"; "profile_collection"; "prescreen"; "eligibility"; "scheduling";
   "handoff"].

(** The steps that [renderForm] tests for by name or by prefix. *)
Definition step_with_own_form (step : string) : bool :=
  bool_decide (step ∈ ["consent_given"; "collecting_identity"; "awaiting_pin"; "scheduling"])
  || Js.startsWith step "collecting_group:"
  || Js.startsWith step "prescreen:".

(** The form chosen from [fields] and [options] alone. *)
Definition generic_form (p : UseChat.state) : option ChatInterface.form :=
  if UseChat.isLoading p || negb (ResponseType.eqb (UseChat.responseType p) RForm)
  then None
  else match UseChat.fields p, UseChat.options p with
       | Some (f :: fs), _ => Some (ChatInterface.ProfileFormEl (f :: fs))
       | _, Some (o :: os) => Some (ChatInterface.PrescreenFormEl (o :: os))
       | _, _ => None
       end.

(** The flag [conversationDone] records whether a handled response had
    [done] set. *)
Definition flag_tracks_done (m : Script.machine) : Prop :=
  Script.conversationDone (Script.page m)
  = existsb ChatResponse.done (Script.handled m).

(** Field names that [Object.prototype] does not define.  A read of a
    plain object under such a name finds the object's own property or
    nothing, and an assignment under it creates an own property. *)
Definition plain_names (fields : list FieldDescriptor.t) : Prop :=
  Forall (λ f, JsObject.inherited (FieldDescriptor.name f) = false) fields.

(** A response whose fields, if any, have such names.  The plain script
    renders it to the end; for a form with a field of another name
    [createFieldInput] reads an inherited value from its option table
    and raises. *)
Definition plain_response (data : ChatResponse.t) : Prop :=
  plain_names (default [] (ChatResponse.fields data)).

Definition plain_event (e : Script.event) : Prop :=
  match e with
  | Script.StartReply (Resolved data) | Script.TurnReply (Resolved data) =>
      plain_response data
  | _ => True
  end.

(** Nothing is awaited and the last response said [done]. *)
Definition ended (m : UseChat.machine) : Prop :=
  UseChat.isDone (UseChat.hook m) = true ∧ UseChat.pending m = None.

(** ** Sample values *)

Definition greeting_response : ChatResponse.t :=
  ChatResponse.mk "s-1" "Welcome" RText "greeting" None None None false.


Definition zip_field : FieldDescriptor.t :=
  FieldDescriptor.mk "zip_code" "text" "ZIP code" None.

Definition zip_typed : gmap string string :=
  ProfileForm.handleChange "zip_code" "27601 " ∅.

Definition ready_state : UseChat.state :=
  UseChat.mk [] (Some "s-1") false "collecting_group:contact" RForm
    (Some [zip_field]) None false.

Definition pin_prompt : ChatResponse.t :=
  ChatResponse.mk "s-1" "Please enter your PIN" RForm "awaiting_pin"
    (Some "pin") None None false.

Definition farewell_response : ChatResponse.t :=
  ChatResponse.mk "s-1" "Thank you for your time." REnd "handoff" None None None true.

(** The hook while the reply to a first message is awaited. *)
Definition awaiting_reply : UseChat.machine :=
  (UseChat.run UseChat.mount.1
     [UseChat.Reply (Resolved greeting_response); UseChat.SendMessage "hi"]).1.

(** A scheduling prompt with two multi-select fields, and some clicks. *)
Definition days_field : FieldDescriptor.t :=
  FieldDescriptor.mk "preferred_days" "multi_select" "Preferred days"
    (Some ["Monday"; "Tuesday"; "Friday"]).

Definition times_field : FieldDescriptor.t :=
  FieldDescriptor.mk "preferred_times" "multi_select" "Preferred times"
    (Some ["Morning"; "Afternoon"]).

Definition scheduling_prompt : ChatResponse.t :=
  ChatResponse.mk "s-1" "When could you come in?" RForm "scheduling" None
    (Some [days_field; times_field]) None false.

Definition some_clicks : list (string * string) :=
  [("preferred_days", "Monday"); ("preferred_days", "Friday");
   ("preferred_days", "Monday"); ("preferred_times", "Morning")].

(** A scheduling prompt whose one field is named like a property of
    [Object.prototype] and lists no options. *)
Definition constructor_field : FieldDescriptor.t :=
  FieldDescriptor.mk "constructor" "multi_select" "Preferred days" None.

Definition constructor_prompt : ChatResponse.t :=
  ChatResponse.mk "s-1" "When could you come in?" RForm "scheduling" None
    (Some [constructor_field]) None false.

(** The hook once the greeting is in: what the render after it sees. *)
Definition greeted : UseChat.state :=
  UseChat.initSession_end (Resolved greeting_response)
    (UseChat.initSession_begin UseChat.initial).1.

(** A participant too young for the age rule. *)
Definition underage_participant : Eligibility.input :=
  Eligibility.mkInput {["age" := Eligibility.VNum 18]} [].

(** Three rules in declared order and a participant who meets the age
    rule and matches both exclusions. *)
Definition rule_age : Eligibility.rule :=
  Eligibility.mkRule "age" Eligibility.op_gte [Eligibility.VNum 22]
    Eligibility.IncludeRequired "age_out_of_range".

Definition rule_pregnant : Eligibility.rule :=
  Eligibility.mkRule "pregnant_or_nursing_or_planning" Eligibility.op_eq
    [Eligibility.VStr "Yes"] Eligibility.ExcludeIfMatched "pregnant_or_nursing".

Definition rule_light_smoker : Eligibility.rule :=
  Eligibility.mkRule "cigarettes_per_day" Eligibility.op_lt [Eligibility.VNum 5]
    Eligibility.ExcludeIfMatched "too_few_cigarettes".

Definition sample_rules : list Eligibility.rule :=
  [rule_age; rule_pregnant; rule_light_smoker].

Definition sample_participant : Eligibility.input :=
  Eligibility.mkInput
    {["age" := Eligibility.VNum 30]}
    [("pregnant_or_nursing_or_planning", Eligibility.VStr "Yes");
     ("cigarettes_per_day", Eligibility.VNum 2)].

(** ** Further parts of the components *)

(** *** ChatInput: the Send button, the box and the key handler *)

Module ChatInputControls.

(** [disabled={disabled || !input.trim()}] on the Send button. *)
Definition buttonDisabled (input : string) (disabled : bool) : bool :=
  disabled || negb (Js.truthy (Js.trim input)).

(** The box after [handleSend]: [setInput('')] when something was sent. *)
Definition inputAfterSend (input : string) (disabled : bool) : string :=
  if Js.truthy (Js.trim input) && negb disabled then "" else input.

(** [handleKeyDown]: Enter without Shift calls [handleSend]. *)
Definition handleKeyDown (key : string) (shiftKey : bool)
    (input : string) (disabled : bool) : option string :=
  if String.eqb key "Enter" && negb shiftKey
  then ChatInput.handleSend input disabled
  else None.

End ChatInputControls.

(** *** PrescreenForm: the radio selection and the button *)

Module PrescreenFormControls.

(** [selected] after the radios named in [picks] were chosen in turn
    ([onChange={() => setSelected(option)}]), from [null]. *)
Definition after_picks (picks : list string) : option string :=
  foldl (λ _ option, Some option) None picks.

(** [disabled={!selected}] on the button. *)
Definition buttonDisabled (selected : option string) : bool :=
  negb (Js.truthy_opt selected).

End PrescreenFormControls.

(** *** ProfileForm: the form data and the button *)

Module ProfileFormControls.

(** [formData] after the given changes (field name, typed value), from
    the empty object. *)
Definition after_changes (cs : list (string * string)) : gmap string string :=
  foldl (λ formData c, ProfileForm.handleChange c.1 c.2 formData) ∅ cs.

(** [isValid], which disables the button when false. *)
Definition isValid (fields : list FieldDescriptor.t)
    (formData : gmap string string) : bool :=
  forallb (ProfileForm.filled formData) fields.

End ProfileFormControls.

(** *** The plain script: what a participant can enter in a control *)

Module ScriptControls.

(** [entered el0 el]: the control created as [el0] can be brought to [el]
    by the participant.  Boxes are ticked or cleared, a dropdown shows its
    placeholder (value [""], which cannot be chosen again) or one of its
    choices, a text input holds any text. *)
Inductive entered : Script.element → Script.element → Prop :=
| entered_boxes boxes boxes' :
    boxes'.*1 = boxes.*1 →
    entered (Script.CheckboxGroup boxes) (Script.CheckboxGroup boxes')
| entered_select choices v0 v :
    v = "" ∨ v ∈ choices →
    entered (Script.Select choices v0) (Script.Select choices v)
| entered_input v0 v :
    entered (Script.Input v0) (Script.Input v).

(** [FIELD_OPTIONS[name]] as [createFieldInput] reads it: the table is a
    plain object, so the read goes through its prototype chain. *)
Definition FIELD_OPTIONS_read (name : string) : JsObject.read (list string) :=
  JsObject.get (list_to_map Script.FIELD_OPTIONS) name.

(** [createFieldInput] with its exception.  A multi-select with options
    returns its group before the table entry is used.  Otherwise an
    entry of the table gives a dropdown of its choices; an inherited
    value is truthy too, but [(options || []).forEach] is then called on
    a value without [forEach], which raises ([None]); and with nothing
    found the type decides between an empty dropdown and a text input. *)
Definition createFieldInput_run (f : FieldDescriptor.t) : option Script.element :=
  if String.eqb (FieldDescriptor.type f) "multi_select"
     && Js.nonempty (FieldDescriptor.options f)
  then Some (Script.CheckboxGroup
               ((λ opt, (opt, false)) <$> default [] (FieldDescriptor.options f)))
  else match FIELD_OPTIONS_read (FieldDescriptor.name f) with
       | JsObject.Own options => Some (Script.Select options "")
       | JsObject.Inherited _ => None
       | JsObject.Undefined =>
           if String.eqb (FieldDescriptor.type f) "select"
           then Some (Script.Select [] "")
           else Some (Script.Input "")
       end.

(** A control counts as filled in the submit handler. *)
Definition filled (el : Script.element) : bool :=
  match el with
  | Script.CheckboxGroup boxes => negb (Nat.eqb (length (Script.checked boxes)) 0)
  | _ => Js.truthy (Js.trim (Script.value_of el))
  end.

End ScriptControls.

(** *** useChat: the responses a run has handled *)

Module UseChatTrace.

(** The responses handled along a run, in order: a reply counts when a
    call is awaited and it resolved. *)
Fixpoint handled (m : UseChat.machine) (es : list UseChat.event)
  : list ChatResponse.t :=
  match es with
  | [] => []
  | e :: es' =>
      match e, UseChat.pending m with
      | UseChat.Reply (Resolved response), Some _ => [response]
      | _, _ => []
      end ++ handled (UseChat.react m e).1 es'
  end.

(** The conversation fields of the hook show a response, or, with no
    response yet, their initial values. *)
Definition shows (o : option ChatResponse.t) (st : UseChat.state) : Prop :=
  match o with
  | Some response =>
      UseChat.sessionId st = Some (ChatResponse.session_id response)
      ∧ UseChat.currentStep st = ChatResponse.step response
      ∧ UseChat.responseType st = ChatResponse.type response
      ∧ UseChat.fields st = ChatResponse.fields response
      ∧ UseChat.options st = ChatResponse.options response
      ∧ UseChat.isDone st = ChatResponse.done response
  | None =>
      UseChat.sessionId st = None
      ∧ UseChat.currentStep st = ""
      ∧ UseChat.responseType st = RText
      ∧ UseChat.fields st = None
      ∧ UseChat.options st = None
      ∧ UseChat.isDone st = false
  end.

(** The response shown after some more have been handled. *)
Definition latest (o : option ChatResponse.t) (l : list ChatResponse.t)
  : option ChatResponse.t :=
  match last l with Some response => Some response | None => o end.

End UseChatTrace.

(** *** useChat: a callback and the render that made it *)

Module UseChatRender.

(** [useCallback] rebuilds [sendMessage] and [submitForm] at a render
    whose [sessionId], [isLoading] or [isDone] differs from the previous
    one.  A call runs the function that some render made: the guard and
    the session id in the request are the values that render saw, while
    [addMessage] and [setIsLoading] act on the state as it is at the
    call.  [UseChat.sendMessage_begin content st] is the call made by the
    render of [st] itself. *)
Definition sendMessage_from (render : UseChat.state) (content : string)
    (now : UseChat.state) : UseChat.state * option Request :=
  match UseChat.sessionId render with
  | Some sid =>
      if UseChat.blocked render then (now, None)
      else (UseChat.setIsLoading true (UseChat.addMessage User content now),
            Some (Api.sendChatMessage sid (Plain content)))
  | None => (now, None)
  end.

Definition submitForm_from (render : UseChat.state)
    (formData : gmap string FormValue) (now : UseChat.state)
  : UseChat.state * option Request :=
  match UseChat.sessionId render with
  | Some sid =>
      if UseChat.blocked render then (now, None)
      else
        let shown :=
          if Js.truthy (UseChat.displayMessage formData)
          then UseChat.displayMessage formData
          else "{}" in
        (UseChat.setIsLoading true (UseChat.addMessage User shown now),
         Some (Api.sendChatMessage sid (FieldMap formData)))
  | None => (now, None)
  end.

End UseChatRender.

(** *** The plain script: the session id along a run *)

Module ScriptTrace.

(** The session id held is that of the first response handled, which is
    the reply to [startSession]; before it nothing is held and no turn
    call is awaited. *)
Definition anchored (m : Script.machine) : Prop :=
  match Script.handled m with
  | [] => Script.sessionId (Script.page m) = None ∧ Script.turnsPending m = 0
  | first :: _ =>
      Script.sessionId (Script.page m) = Some (ChatResponse.session_id first)
      ∧ Script.startPending m = false
  end.

End ScriptTrace.

(** ** components/DataViewPanel *)

Module DataViewPanel.

(** [LeadDataResponse]; [lead_data] is [Record<string, string | null>]
    or null. *)
Record LeadDataResponse : Type := mkResponse {
  session_id : string;
  lead_id : option Z;
  current_step : string;
  lead_data : option (gmap string (option string));
  missing_fields : list string;
  field_groups : list (string * list (string * string))
}.

(** The component's state and the [previousDataRef] cell. *)
Record state : Type := mk {
  data : option LeadDataResponse;
  loading : bool;
  error : option string;
  updatedFields : gset string;
  previousData : option (gmap string (option string))
}.

Definition initial : state := mk None false None ∅ None.

(** The [changed] set built by the loop over [Object.entries]: the keys
    whose new value is not null and differs from the previous one (a key
    the previous data lacks reads as undefined there, which differs from
    everything). *)
Definition changed (previous new : gmap string (option string)) : gset string :=
  dom (filter (λ kv, previous !! kv.1 ≠ Some kv.2 ∧ kv.2 ≠ None) new).

(** [fetchData] from the parsed reply on. *)
Definition fetch_ok (newData : LeadDataResponse) (st : state) : state :=
  let updated :=
    match previousData st, lead_data newData with
    | Some previous, Some new =>
        if decide (changed previous new = ∅) then updatedFields st
        else changed previous new
    | _, _ => updatedFields st
    end in
  mk (Some newData) false None updated (lead_data newData).

(** [fetchData] when the call throws or the reply is not ok. *)
Definition fetch_failed (message : string) (st : state) : state :=
  mk (data st) false (Some message) (updatedFields st) (previousData st).

(** The timer callback [setUpdatedFields(new Set())]. *)
Definition clearHighlights (st : state) : state :=
  mk (data st) (loading st) (error st) ∅ (previousData st).

End DataViewPanel.

(** ** Properties *)

Section FormatPhone.
Import Js IdentityForm.

Lemma chars_str l : chars (str l) = l.
Proof. apply list_ascii_of_string_of_list_ascii. Qed.

Lemma strip_app l1 l2 :
  strip_non_digits (l1 ++ l2) = strip_non_digits l1 ++ strip_non_digits l2.
Proof. apply List.filter_app. Qed.

Lemma strip_all_digits l :
  Forall (λ c, is_digit c = true) l → strip_non_digits l = l.
Proof.
  induction 1 as [|c l Hc _ IH]; [done|].
  simpl. by rewrite Hc, IH.
Qed.

Lemma strip_is_digits l : Forall (λ c, is_digit c = true) (strip_non_digits l).
Proof.
  induction l as [|c l IH]; [constructor|].
  simpl. destruct (is_digit c) eqn:E; [by constructor|done].
Qed.

Lemma take_take_drop {A} (n m : nat) (l : list A) :
  take n l ++ take m (drop n l) = take (n + m) l.
Proof.
  revert l; induction n as [|n IH]; intros [|x l]; simpl; try done.
  - by rewrite take_nil.
  - by rewrite IH.
Qed.

(** Digits of the grouped output: the first ten digits of the input. *)
Lemma strip_group d :
  Forall (λ c, is_digit c = true) d →
  strip_non_digits (group d) = take 10 d.
Proof.
  intros Hd. unfold group, slice, slice_from.
  destruct (length d <=? 3)%nat eqn:E3.
  { apply Nat.leb_le in E3. rewrite strip_all_digits by done.
    symmetry. apply take_ge. lia. }
  destruct (length d <=? 6)%nat eqn:E6.
  { apply Nat.leb_le in E6.
    rewrite !strip_app. simpl (strip_non_digits dash).
    rewrite !strip_all_digits by (by apply Forall_take || by apply Forall_drop).
    rewrite drop_0. simpl. rewrite take_drop. symmetry. apply take_ge. lia. }
  rewrite !strip_app. simpl (strip_non_digits dash).
  rewrite !strip_all_digits
    by (apply Forall_take; try apply Forall_drop; done).
  rewrite drop_0. simpl app.
  change (6 - 3) with 3. change (10 - 6) with 4. change (3 - 0) with 3.
  replace (drop 6 d) with (drop 3 (drop 3 d)) by (by rewrite drop_drop).
  rewrite (take_take_drop 3 4 (drop 3 d)). simpl (3 + 4).
  by rewrite (take_take_drop 3 7 d).
Qed.

Lemma group_take10 d : group (take 10 d) = group d.
Proof.
  do 11 (destruct d as [|? d]; [reflexivity|]).
  reflexivity.
Qed.

Lemma group_layout d : group d = join_dash (blocks_3_3_4 d).
Proof.
  do 11 (destruct d as [|? d]; [reflexivity|]).
  reflexivity.
Qed.

End FormatPhone.

(** C10. [formatPhone] is idempotent; the digits of its result are the
    first ten digits of its argument (any later digit is dropped); and the
    result is those digits laid out as XXX-XXX-XXXX, that is in blocks of
    three, three and four joined by dashes. *)
Theorem formatPhone_idempotent_first_ten (s : string) :
  IdentityForm.formatPhone (IdentityForm.formatPhone s) = IdentityForm.formatPhone s
  ∧ IdentityForm.digits_of (IdentityForm.formatPhone s)
    = take 10 (IdentityForm.digits_of s)
  ∧ IdentityForm.formatPhone s = IdentityForm.phone_layout (IdentityForm.digits_of s).
Proof.
  unfold IdentityForm.formatPhone, IdentityForm.digits_of, IdentityForm.phone_layout.
  rewrite !chars_str.
  rewrite strip_group by apply strip_is_digits.
  split_and!.
  - by rewrite group_take10.
  - done.
  - by rewrite group_layout.
Qed.

(** ** The React client after a reply *)

Section Settled.
Import UseChat.

(** What the hook holds once a reply to a turn call has been handled
    and [finally] has run. *)
Lemma settled_after_turn (response : ChatResponse.t) (st : state) :
  let p := sendMessage_end (Resolved response) st in
  sessionId p = Some (ChatResponse.session_id response)
  ∧ isLoading p = false
  ∧ currentStep p = ChatResponse.step response
  ∧ responseType p = ChatResponse.type response
  ∧ fields p = ChatResponse.fields response
  ∧ options p = ChatResponse.options response
  ∧ isDone p = ChatResponse.done response.
Proof.
  simpl. unfold handleResponse.
  by destruct (Js.truthy (ChatResponse.message response)).
Qed.

End Settled.

(** C9. A form-typed response whose [fields] and [options] are both null
    or empty, and whose step is none of the steps that [renderForm] tests
    for, leaves the participant without any input control: [renderForm]
    returns null and the text bar, shown only for type "text", is hidden. *)
Theorem form_without_fields_or_options_has_no_control
    (response : ChatResponse.t) (st : UseChat.state) :
  ChatResponse.type response = RForm →
  Js.nonempty (ChatResponse.fields response) = false →
  Js.nonempty (ChatResponse.options response) = false →
  ChatResponse.step response ∉
    ["consent_given"; "collecting_identity"; "awaiting_pin"; "scheduling"] →
  Js.startsWith (ChatResponse.step response) "collecting_group:" = false →
  Js.startsWith (ChatResponse.step response) "prescreen:" = false →
  let p := UseChat.sendMessage_end (Resolved response) st in
  ChatInterface.renderForm p = None
  ∧ ChatInterface.showTextInput p = false
  ∧ (∀ q, ChatInterface.showTextInput q = true → UseChat.responseType q = RText).
Proof.
  intros Hty Hfs Hos Hstep Hgrp Hpre p.
  destruct (settled_after_turn response st)
    as (_ & Hload & Hcur & Hrt & Hf & Ho & _).
  fold p in Hload, Hcur, Hrt, Hf, Ho.
  assert (Hne : ∀ s, s ∈ ["consent_given"; "collecting_identity"; "awaiting_pin"; "scheduling"]
                     → String.eqb (ChatResponse.step response) s = false).
  { intros s Hs. apply String.eqb_neq. intros <-. done. }
  split_and!.
  - unfold ChatInterface.renderForm. cbv zeta.
    rewrite Hload, Hcur, Hrt, Hf, Ho, Hty, Hgrp, Hpre, Hfs, Hos.
    rewrite !Hne by set_solver. simpl.
    by destruct (ChatResponse.fields response), (ChatResponse.options response).
  - unfold ChatInterface.showTextInput. by rewrite Hrt, Hty.
  - intros q. unfold ChatInterface.showTextInput.
    by destruct (UseChat.responseType q).
Qed.

Lemma form_without_fields_or_options_has_no_control_witness :
  let response :=
    ChatResponse.mk "s-1" "Please wait" RForm "eligibility" None (Some []) None false in
  let p := UseChat.sendMessage_end (Resolved response) UseChat.initial in
  ChatInterface.renderForm p = None
  ∧ ChatInterface.showTextInput p = false
  ∧ (∀ q, ChatInterface.showTextInput q = true → UseChat.responseType q = RText).
Proof.
  apply (form_without_fields_or_options_has_no_control
           (ChatResponse.mk "s-1" "Please wait" RForm "eligibility" None (Some []) None false)
           UseChat.initial);
    first [reflexivity | (intros H; by repeat (apply elem_of_cons in H as [H|H]; [done|]); inversion H) | idtac].
Defined.

(** C7. The bootstrap request of either client is a POST whose body holds
    the single property [study_id] with value "zyn"; the reply to it and
    the reply to a turn call are values of the one response type and go
    through the one handler ([handleResponse] in the hook,
    [renderResponse] in the plain script). *)
Theorem bootstrap_request_and_shared_handler :
  UseChat.mount.2 = Some (PostSession (JObj [("study_id", JStr "zyn")]))
  ∧ Script.load.2 = PostSession (JObj [("study_id", JStr "zyn")])
  ∧ Json.keys (JObj [("study_id", JStr "zyn")]) = ["study_id"]
  ∧ (∀ (response : ChatResponse.t) (st : UseChat.state),
        UseChat.initSession_end (Resolved response) st
        = UseChat.setIsLoading false (UseChat.handleResponse response st)
        ∧ UseChat.sendMessage_end (Resolved response) st
          = UseChat.setIsLoading false (UseChat.handleResponse response st)
        ∧ UseChat.submitForm_end (Resolved response) st
          = UseChat.setIsLoading false (UseChat.handleResponse response st))
  ∧ (∀ (data : ChatResponse.t) (st : Script.state),
        Script.startSession_end (Resolved data) st
        = Script.renderResponse data
            (Script.setSessionId (ChatResponse.session_id data) st)
        ∧ Script.sendMessage_end (Resolved data) st
          = Script.renderResponse data (Script.showTyping false st)).
Proof. by split_and!. Qed.

(** ** SchedulingForm: the selection state *)

Section Scheduling.
Import SchedulingForm.

Variable fields : list FieldDescriptor.t.

Lemma tidy_empty : tidy fields ∅.
Proof.
  intros name. unfold current. rewrite lookup_empty. simpl.
  split; [constructor | intros o Ho; by apply elem_of_nil in Ho].
Qed.

Lemma current_toggle_other fieldName option name sel :
  fieldName ≠ name →
  current (handleToggle fieldName option sel) name = current sel name.
Proof.
  intros Hne. unfold handleToggle, current.
  case_bool_decide; by rewrite lookup_insert_ne.
Qed.

Lemma current_toggle_same fieldName option sel :
  current (handleToggle fieldName option sel) fieldName
  = if bool_decide (option ∈ current sel fieldName)
    then filter (λ o, o ≠ option) (current sel fieldName)
    else current sel fieldName ++ [option].
Proof.
  unfold handleToggle. fold (current sel fieldName).
  case_bool_decide; unfold current at 1; by rewrite lookup_insert_eq.
Qed.

Lemma tidy_toggle fieldName option sel :
  offered fields fieldName option → tidy fields sel →
  tidy fields (handleToggle fieldName option sel).
Proof.
  intros Hoff Hsel name.
  destruct (decide (fieldName = name)) as [<-|Hne].
  - destruct (Hsel fieldName) as [Hnd Hin].
    rewrite current_toggle_same. case_bool_decide as Hmem.
    + split; [by apply NoDup_filter|].
      intros o Ho. apply list_elem_of_filter in Ho as [_ Ho]. by apply Hin.
    + split.
      * apply NoDup_app. split_and!; [done| |apply NoDup_singleton].
        intros x Hx Hx'. apply list_elem_of_singleton in Hx'. by subst.
      * intros o Ho. apply elem_of_app in Ho as [Ho|Ho]; [by apply Hin|].
        apply list_elem_of_singleton in Ho. by subst.
  - rewrite current_toggle_other by done. apply Hsel.
Qed.

Lemma tidy_after_clicks (cs : list (string * string)) :
  Forall (click fields) cs → tidy fields (after_clicks cs).
Proof.
  unfold after_clicks.
  induction cs as [|c cs IH] using rev_ind; intros Hcs; [apply tidy_empty|].
  apply Forall_app in Hcs as [Hcs Hc]. rewrite Forall_singleton in Hc.
  rewrite foldl_snoc. apply tidy_toggle; [|by apply IH].
  exact Hc.
Qed.

Lemma has_selection_plain (sel : gmap string (list string)) (name : string) :
  JsObject.inherited name = false →
  has_selection sel name = (0 <? length (current sel name))%nat.
Proof.
  unfold has_selection, JsObject.get, JsObject.inherited, current. intros H.
  destruct (sel !! name); [done|].
  by destruct (JsObject.inherited_length name JsObject.prototype).
Qed.

Lemma isSelected_plain (sel : gmap string (list string)) (name option : string) :
  JsObject.inherited name = false →
  isSelected sel name option = Some (bool_decide (option ∈ current sel name)).
Proof.
  unfold isSelected, JsObject.get, JsObject.inherited, current. intros H.
  destruct (sel !! name); [done|].
  destruct (JsObject.inherited_length name JsObject.prototype); [done|].
  by simpl.
Qed.

Lemma mapM_total {A B} (f : A → Datatypes.option B) (g : A → B) (l : list A) :
  (∀ x, x ∈ l → f x = Some (g x)) → mapM f l = Some (g <$> l).
Proof.
  intros H. apply mapM_Some, Forall2_fmap_r, Forall_Forall2_diag, Forall_forall.
  exact H.
Qed.

(** What the form draws when no field name is an inherited one. *)
Lemma render_plain (sel : gmap string (list string)) :
  plain_names fields →
  render fields sel
  = Some ((λ f, (FieldDescriptor.label f,
                 (λ o, (o, bool_decide (o ∈ current sel (FieldDescriptor.name f))))
                   <$> default [] (FieldDescriptor.options f))) <$> fields).
Proof.
  unfold plain_names. rewrite Forall_forall. intros Hplain.
  unfold render. apply mapM_total. intros f Hf.
  unfold boxes.
  rewrite (mapM_total _
             (λ o, (o, bool_decide (o ∈ current sel (FieldDescriptor.name f))))).
  - done.
  - intros o _. by rewrite isSelected_plain by by apply Hplain.
Qed.

Lemma isValid_spec (sel : gmap string (list string)) :
  plain_names fields →
  isValid fields sel = true
  ↔ ∀ f, f ∈ fields → current sel (FieldDescriptor.name f) ≠ [].
Proof.
  unfold plain_names. rewrite Forall_forall. intros Hplain.
  unfold isValid. rewrite forallb_forall. split.
  - intros H f Hf. pose proof (Hplain f Hf) as Hp.
    apply list_elem_of_In, H in Hf. rewrite has_selection_plain in Hf by done.
    apply Nat.ltb_lt in Hf.
    destruct (current sel (FieldDescriptor.name f)); simpl in Hf; [lia|done].
  - intros H f Hf. apply list_elem_of_In in Hf.
    rewrite has_selection_plain by by apply Hplain.
    apply H in Hf. apply Nat.ltb_lt.
    destruct (current sel (FieldDescriptor.name f)); [done|simpl; lia].
Qed.

End Scheduling.

(** C5, at a field that breaks it.  For the scheduling prompt whose one
    field is named "constructor" and lists no options, the client draws
    the scheduling form with the field's label and no check box.
    Nothing can be selected and the selection state is the empty object,
    in which the field has no selection list at all.  The form counts as
    valid all the same: the read [selections["constructor"]] finds the
    [Object] function that every plain object inherits, which is truthy
    and has [length] 1.  Submitting hands over the empty object, and the
    hook sends it as the participant's answer. *)
Theorem scheduling_form_submits_without_selection :
  let p := UseChat.sendMessage_end (Resolved constructor_prompt) UseChat.initial in
  ChatInterface.renderForm p = Some (ChatInterface.SchedulingFormEl [constructor_field])
  ∧ SchedulingForm.render [constructor_field] ∅ = Some [("Preferred days", [])]
  ∧ (∅ : gmap string (list string)) !! "constructor" = None
  ∧ JsObject.get (∅ : gmap string (list string)) "constructor"
    = JsObject.Inherited (Some 1%nat)
  ∧ SchedulingForm.isValid [constructor_field] ∅ = true
  ∧ SchedulingForm.handleSubmit [constructor_field] ∅ = Some ∅
  ∧ (UseChat.submitForm_begin ∅ p).2
    = Some (PostChat (ChatRequest.mk "s-1" (FieldMap ∅))).
Proof. by split_and!. Qed.

(** ** The response as declared *)



(** ** What the forms submit *)

Section Submissions.

Lemma collect_filled el :
  (Script.collect el).2 = true → (Script.collect el).1 = Some (promised el).
Proof.
  destruct el as [boxes|choices v|v]; simpl; [done| |];
    by destruct (negb (Js.truthy v) || negb (Js.truthy (Js.trim v))).
Qed.

(** The plain script: a submitted multi-field form sends an object with
    one entry per control, the promised value under the field's name. *)
Lemma script_multi_field_payload (inputs : gmap string Script.element) (p : Payload) :
  Script.multiFieldSubmit inputs = Some p →
  p = FieldMap (promised <$> inputs).
Proof.
  unfold Script.multiFieldSubmit. case_bool_decide as Hall; [|done].
  intros [= <-]. f_equal. apply map_eq. intros name.
  rewrite lookup_omap, lookup_fmap.
  destruct (inputs !! name) as [el|] eqn:E; [|done]. simpl.
  apply collect_filled. by apply (Hall name el).
Qed.

Lemma script_single_payload :
  (∀ selected p, Script.radioSubmit selected = Some p →
      ∃ s, selected = Some s ∧ p = Plain s)
  ∧ (∀ value p, Script.inputSubmit value = Some p → p = Plain (Js.trim value)).
Proof.
  split.
  - intros [s|] p; simpl; [|done]. intros [= <-]. eauto.
  - intros value p. unfold Script.inputSubmit.
    destruct (Js.truthy (Js.trim value)); [|done]. by intros [= <-].
Qed.

(** The React client: text inputs and single choices. *)
Lemma react_single_payload :
  (∀ input disabled s, ChatInput.handleSend input disabled = Some s → s = Js.trim input)
  ∧ (∀ selected s, PrescreenForm.handleSubmit selected = Some s → selected = Some s).
Proof.
  split.
  - intros input disabled s. unfold ChatInput.handleSend.
    destruct (_ && _); [|done]. by intros [= <-].
  - intros [x|] s; simpl; [|done]. destruct (Js.truthy x); [|done]. by intros [= <-].
Qed.

End Submissions.

(** C2 at the profile form of the React client.  With "27601 " typed into
    a text field, the form passes its check (the trimmed value is not
    empty) and hands over the value as typed; the plain script sends the
    trimmed value "27601" for the same entry. *)
Theorem profile_form_sends_untrimmed_value :
  ProfileForm.handleSubmit [zip_field] zip_typed
    = Some {["zip_code" := FStr "27601 "]}
  ∧ (UseChat.submitForm_begin {["zip_code" := FStr "27601 "]} ready_state).2
    = Some (PostChat (ChatRequest.mk "s-1" (FieldMap {["zip_code" := FStr "27601 "]})))
  ∧ Js.trim "27601 " = "27601"
  ∧ Script.multiFieldSubmit {["zip_code" := Script.Input "27601 "]}
    = Some (FieldMap {["zip_code" := FStr "27601"]}).
Proof.
  split_and!.
  - unfold ProfileForm.handleSubmit, zip_typed, ProfileForm.handleChange.
    rewrite insert_empty, map_fmap_singleton. simpl.
    unfold ProfileForm.filled. simpl. by rewrite lookup_singleton_eq.
  - reflexivity.
  - reflexivity.
  - unfold Script.multiFieldSubmit.
    rewrite bool_decide_eq_true_2.
    + by rewrite omap_singleton_Some with (y := FStr "27601").
    + by apply map_Forall_singleton.
Qed.

(** ** The step of a response *)

Section Steps.

Lemma renderForm_generic (p : UseChat.state) :
  step_with_own_form (UseChat.currentStep p) = false →
  ChatInterface.renderForm p = generic_form p.
Proof.
  unfold step_with_own_form. intros H.
  apply orb_false_iff in H as [H Hpre]. apply orb_false_iff in H as [H Hgrp].
  apply bool_decide_eq_false in H.
  assert (Hne : ∀ s, s ∈ ["consent_given"; "collecting_identity"; "awaiting_pin"; "scheduling"]
                     → String.eqb (UseChat.currentStep p) s = false).
  { intros s Hs. apply String.eqb_neq. by intros <-. }
  unfold ChatInterface.renderForm, generic_form. cbv zeta.
  rewrite Hgrp, Hpre, !Hne by set_solver.
  destruct (_ || _); [done|]. simpl.
  destruct (UseChat.fields p) as [[|f fs]|], (UseChat.options p) as [[|o os]|]; done.
Qed.

Lemma catalog_steps_without_own_form (step : string) :
  step ∈ catalog → step ≠ "scheduling" → step_with_own_form step = false.
Proof.
  unfold catalog. intros H Hne.
  repeat (apply elem_of_cons in H as [->|H]; [by vm_compute|]).
  by apply elem_of_nil in H.
Qed.

Lemma prescreen_not_group (step : string) :
  Js.startsWith step "prescreen:" = true →
  Js.startsWith step "collecting_group:" = false.
Proof.
  unfold Js.startsWith. destruct step as [|c step]; [done|]. cbn [String.prefix].
  destruct (ascii_dec "p" c) as [<-|Hp]; [|done].
  intros _. by destruct (ascii_dec "c" "p").
Qed.

Lemma prefixed_not_named (step s : string) :
  Js.startsWith step "collecting_group:" = true ∨ Js.startsWith step "prescreen:" = true →
  s ∈ ["consent_given"; "collecting_identity"; "awaiting_pin"; "scheduling"] →
  String.eqb step s = false.
Proof.
  intros H Hs. apply String.eqb_neq. intros ->.
  repeat (apply elem_of_cons in Hs as [->|Hs];
          [destruct H as [H|H]; vm_compute in H; discriminate|]).
  by apply elem_of_nil in Hs.
Qed.

(** The forms that [renderForm] picks by the step. *)
Lemma renderForm_by_step (p : UseChat.state) :
  UseChat.isLoading p = false → UseChat.responseType p = RForm →
  (UseChat.currentStep p = "consent_given" ∨ UseChat.currentStep p = "collecting_identity" →
     ChatInterface.renderForm p = Some ChatInterface.IdentityFormEl)
  ∧ (UseChat.currentStep p = "awaiting_pin" →
       ChatInterface.renderForm p = Some ChatInterface.PinInputEl)
  ∧ (∀ fs, UseChat.currentStep p = "scheduling" → UseChat.fields p = Some fs →
       ChatInterface.renderForm p = Some (ChatInterface.SchedulingFormEl fs))
  ∧ (∀ fs, Js.startsWith (UseChat.currentStep p) "collecting_group:" = true →
       UseChat.fields p = Some fs →
       ChatInterface.renderForm p = Some (ChatInterface.ProfileFormEl fs))
  ∧ (∀ os, Js.startsWith (UseChat.currentStep p) "prescreen:" = true →
       UseChat.options p = Some os →
       ChatInterface.renderForm p = Some (ChatInterface.PrescreenFormEl os)).
Proof.
  intros Hl Hr. unfold ChatInterface.renderForm. cbv zeta. rewrite Hl, Hr. simpl.
  split_and!.
  - by intros [-> | ->].
  - by intros ->.
  - by intros fs -> ->.
  - intros fs Hpre ->.
    rewrite !(prefixed_not_named (UseChat.currentStep p)) by (eauto; set_solver).
    by rewrite Hpre.
  - intros os Hpre ->.
    rewrite !(prefixed_not_named (UseChat.currentStep p)) by (eauto; set_solver).
    by rewrite (prescreen_not_group _ Hpre), Hpre.
Qed.

(** A step whose form needs a list falls back on [fields] and [options]
    when that list is null. *)
Lemma renderForm_by_step_null (p : UseChat.state) :
  (UseChat.currentStep p = "scheduling"
   ∨ Js.startsWith (UseChat.currentStep p) "collecting_group:" = true) ∧ UseChat.fields p = None
  ∨ Js.startsWith (UseChat.currentStep p) "prescreen:" = true ∧ UseChat.options p = None →
  ChatInterface.renderForm p = generic_form p.
Proof.
  unfold ChatInterface.renderForm, generic_form. cbv zeta.
  destruct (_ || _); [done|].
  intros [[[Hs|Hpre] Hf]|[Hpre Ho]].
  - rewrite Hs, Hf. simpl. by destruct (UseChat.options p) as [[|o os]|].
  - rewrite !(prefixed_not_named (UseChat.currentStep p)) by (eauto; set_solver).
    destruct (Js.startsWith (UseChat.currentStep p) "prescreen:") eqn:E.
    { apply prescreen_not_group in E. congruence. }
    rewrite Hpre, Hf. simpl. by destruct (UseChat.options p) as [[|o os]|].
  - rewrite !(prefixed_not_named (UseChat.currentStep p)) by (eauto; set_solver).
    rewrite (prescreen_not_group _ Hpre), Hpre, Ho. simpl.
    by destruct (UseChat.fields p) as [[|f fs]|].
Qed.

End Steps.

(** C3, as the code has it.  After a turn the client's current step is
    the step string of the response, whatever it is.  For a form
    response that is shown, [renderForm] picks the identity form for the
    steps consent_given and collecting_identity, the PIN input for
    awaiting_pin, the scheduling form for scheduling when [fields] is
    not null, the profile form for a step that begins with
    collecting_group: when [fields] is not null, and the single-choice
    form for a step that begins with prescreen: when [options] is not
    null.  In every other case the form depends on [fields] and
    [options] alone: for a step of those above whose list is null, for
    every step that is none of them, and so for every node id of the
    catalog but scheduling. *)
Theorem current_step_is_response_step :
  (∀ (response : ChatResponse.t) (st : UseChat.state),
      UseChat.currentStep (UseChat.sendMessage_end (Resolved response) st)
      = ChatResponse.step response
      ∧ UseChat.currentStep (UseChat.initSession_end (Resolved response) st)
        = ChatResponse.step response)
  ∧ (∀ p, UseChat.isLoading p = false → UseChat.responseType p = RForm →
      (UseChat.currentStep p = "consent_given"
       ∨ UseChat.currentStep p = "collecting_identity" →
         ChatInterface.renderForm p = Some ChatInterface.IdentityFormEl)
      ∧ (UseChat.currentStep p = "awaiting_pin" →
           ChatInterface.renderForm p = Some ChatInterface.PinInputEl)
      ∧ (∀ fs, UseChat.currentStep p = "scheduling" → UseChat.fields p = Some fs →
           ChatInterface.renderForm p = Some (ChatInterface.SchedulingFormEl fs))
      ∧ (∀ fs, Js.startsWith (UseChat.currentStep p) "collecting_group:" = true →
           UseChat.fields p = Some fs →
           ChatInterface.renderForm p = Some (ChatInterface.ProfileFormEl fs))
      ∧ (∀ os, Js.startsWith (UseChat.currentStep p) "prescreen:" = true →
           UseChat.options p = Some os →
           ChatInterface.renderForm p = Some (ChatInterface.PrescreenFormEl os)))
  ∧ (∀ p, (UseChat.currentStep p = "scheduling"
           ∨ Js.startsWith (UseChat.currentStep p) "collecting_group:" = true)
          ∧ UseChat.fields p = None
          ∨ Js.startsWith (UseChat.currentStep p) "prescreen:" = true
            ∧ UseChat.options p = None →
          ChatInterface.renderForm p = generic_form p)
  ∧ (∀ p, step_with_own_form (UseChat.currentStep p) = false →
          ChatInterface.renderForm p = generic_form p)
  ∧ (∀ p, UseChat.currentStep p ∈ catalog →
          UseChat.currentStep p ≠ "scheduling" →
          ChatInterface.renderForm p = generic_form p).
Proof.
  split_and!.
  - intros response st. split; apply settled_after_turn.
  - apply renderForm_by_step.
  - apply renderForm_by_step_null.
  - apply renderForm_generic.
  - intros p Hin Hne. by apply renderForm_generic, catalog_steps_without_own_form.
Qed.

Lemma current_step_is_response_step_witness :
  let p := UseChat.sendMessage_end (Resolved greeting_response) UseChat.initial in
  ChatInterface.renderForm p = generic_form p.
Proof.
  destruct current_step_is_response_step as (_ & _ & _ & _ & Hcat).
  apply Hcat; [|done].
  simpl. unfold catalog. set_solver.
Defined.

(** C3, as stated, fails: the reply that asks for the PIN carries the
    step awaiting_pin, which is no node id of the catalog; the client
    keeps it as its current step and answers it with the PIN input. *)
Lemma current_step_outside_catalog :
  let p := UseChat.sendMessage_end (Resolved pin_prompt) UseChat.initial in
  UseChat.currentStep p = "awaiting_pin"
  ∧ ¬ (UseChat.currentStep p ∈ catalog)
  ∧ ChatInterface.renderForm p = Some ChatInterface.PinInputEl.
Proof.
  split_and!; [reflexivity| |reflexivity].
  simpl. unfold catalog. intros H.
  repeat (apply elem_of_cons in H as [H|H]; [done|]). by apply elem_of_nil in H.
Qed.

(** ** When a turn request is issued *)

Section ScriptTurns.
Import Script.

Lemma renderResponse_done data st :
  conversationDone (renderResponse data st)
  = ChatResponse.done data || conversationDone st.
Proof.
  unfold renderResponse.
  destruct (ChatResponse.done data); simpl; [done|].
  by repeat match goal with |- context [if ?b then _ else _] => destruct b end.
Qed.

Lemma sendMessage_begin_keeps text st :
  conversationDone (sendMessage_begin text st).1 = conversationDone st
  ∧ sessionId (sendMessage_begin text st).1 = sessionId st.
Proof.
  unfold sendMessage_begin. destruct (sessionId st) eqn:E; [|done].
  destruct (_ || _); by rewrite ?E.
Qed.

(** The guard of [sendMessage], read off its result. *)
Lemma sendMessage_begin_issues text st :
  is_Some (sendMessage_begin text st).2
  ↔ Js.truthy_opt (sessionId st) = true
    ∧ conversationDone st = false ∧ blank text = false.
Proof.
  unfold sendMessage_begin. destruct (sessionId st) as [sid|]; simpl.
  - destruct (Js.truthy sid), (conversationDone st), (blank text); simpl;
      split; try (intros [x [=]]); try (intros (? & ? & ?)); try done; eauto.
  - split; [intros [x [=]] | by intros [[=] _]].
Qed.

Lemma none_done (l : list ChatResponse.t) :
  existsb ChatResponse.done l = false
  ↔ Forall (λ r, ChatResponse.done r = false) l.
Proof.
  induction l as [|r l IH]; simpl.
  - split; [constructor|done].
  - by rewrite Forall_cons, <- IH, orb_false_iff.
Qed.

Lemma react_tracks m e : flag_tracks_done m → flag_tracks_done (react m e).1.
Proof.
  unfold flag_tracks_done. intros H. destruct e as [text|o|o]; simpl.
  - destruct (sendMessage_begin text (page m)) as [st rq] eqn:E. simpl.
    pose proof (sendMessage_begin_keeps text (page m)) as [Hd _].
    rewrite E in Hd. simpl in Hd. congruence.
  - destruct (startPending m); [|done]. simpl.
    rewrite existsb_app, <- H.
    destruct o as [data|]; simpl.
    + rewrite renderResponse_done. simpl. by rewrite orb_false_r, orb_comm.
    + by rewrite orb_false_r.
  - destruct (turnsPending m); [done|]. simpl.
    rewrite existsb_app, <- H.
    destruct o as [data|]; simpl.
    + rewrite renderResponse_done. simpl. by rewrite orb_false_r, orb_comm.
    + by rewrite orb_false_r.
Qed.

Lemma run_tracks es : ∀ m, flag_tracks_done m → flag_tracks_done (run m es).1.
Proof.
  induction es as [|e es IH]; intros m H; [done|]. simpl.
  pose proof (react_tracks m e H) as H'.
  destruct (react m e) as [m' rq]. specialize (IH m' H').
  by destruct (run m' es) as [m'' rqs].
Qed.

Lemma react_done_silent m e :
  conversationDone (page m) = true →
  conversationDone (page (react m e).1) = true ∧ (react m e).2 = None.
Proof.
  intros H. destruct e as [text|o|o]; simpl.
  - unfold sendMessage_begin. destruct (sessionId (page m)); [|done].
    rewrite H, orb_true_r. by simpl.
  - destruct (startPending m); [|done]. simpl. split; [|done].
    destruct o; simpl; [|done]. rewrite renderResponse_done. simpl.
    by rewrite H, orb_true_r.
  - destruct (turnsPending m); [done|]. simpl. split; [|done].
    destruct o; simpl; [|done]. rewrite renderResponse_done. simpl.
    by rewrite H, orb_true_r.
Qed.

Lemma run_done_silent es :
  ∀ m, conversationDone (page m) = true → (run m es).2 = [].
Proof.
  induction es as [|e es IH]; intros m H; [done|]. simpl.
  destruct (react_done_silent m e H) as [H' Hrq].
  destruct (react m e) as [m' rq]. simpl in *. subst rq.
  specialize (IH m' H'). by destruct (run m' es) as [m'' rqs].
Qed.

End ScriptTurns.

Section HookTurns.
Import UseChat.

(** The guard of the hook's [sendMessage], read off its result. *)
Lemma hook_sendMessage_issues content st :
  is_Some (sendMessage_begin content st).2
  ↔ Js.truthy_opt (sessionId st) = true
    ∧ isLoading st = false ∧ isDone st = false.
Proof.
  unfold sendMessage_begin, blocked. destruct (sessionId st) as [sid|]; simpl.
  - destruct (Js.truthy sid), (isLoading st), (isDone st); simpl;
      split; try (intros [x [=]]); try (intros (? & ? & ?)); try done; eauto.
  - split; [intros [x [=]] | by intros [[=] _]].
Qed.

Lemma react_ended m e : ended m → ended (react m e).1 ∧ (react m e).2 = None.
Proof.
  intros [Hd Hp]. destruct e as [content|formData|o]; simpl.
  - unfold sendMessage_begin, blocked. rewrite Hd, !orb_true_r.
    by destruct (sessionId (hook m)).
  - unfold submitForm_begin, blocked. rewrite Hd, !orb_true_r.
    by destruct (sessionId (hook m)).
  - by rewrite Hp.
Qed.

Lemma run_ended es : ∀ m, ended m → (run m es).2 = [].
Proof.
  induction es as [|e es IH]; intros m H; [done|]. simpl.
  destruct (react_ended m e H) as [H' Hrq].
  destruct (react m e) as [m' rq]. simpl in *. subst rq.
  specialize (IH m' H'). by destruct (run m' es) as [m'' rqs].
Qed.

Lemma reply_done_ends m response :
  is_Some (pending m) → ChatResponse.done response = true →
  ended (react m (Reply (Resolved response))).1.
Proof.
  intros [c Hc] Hd. simpl. rewrite Hc.
  destruct c; simpl; (split; [|done]);
    rewrite <- Hd; apply settled_after_turn.
Qed.

(** A call is judged by the render that made its function. *)
Lemma sendMessage_from_guard render content now :
  (UseChatRender.sendMessage_from render content now).2
  = (sendMessage_begin content render).2.
Proof.
  unfold UseChatRender.sendMessage_from, sendMessage_begin.
  destruct (sessionId render); [|done]. by destruct (blocked render).
Qed.

Lemma sendMessage_from_self content st :
  UseChatRender.sendMessage_from st content st = sendMessage_begin content st.
Proof. done. Qed.

End HookTurns.

(** C8, as the code has it.  In the plain script, after any course of
    events whose responses are rendered to the end (none has a field
    named like a property of [Object.prototype]), [sendMessage] issues a
    /chat request iff a session id is held, no response handled so far
    had [done] set, and the trimmed text is not empty; and once the
    script has recorded a response with [done] set, it never issues a
    request again.  In the React client a call of [sendMessage] is judged
    by the state that the render which made the function saw, whatever
    the state is at the call: it issues a /chat request iff that render
    saw a session id, no call awaited ([isLoading] false) and the
    response handled last without [done] set; the text is not looked
    at.  So while every call comes from a render that has seen what the
    previous event left, no request is issued once a response with
    [done] set has been handled. *)
Theorem turn_request_guards :
  (∀ (es : list Script.event) (text : Payload),
      Forall plain_event es →
      let m := (Script.run Script.load.1 es).1 in
      is_Some (Script.sendMessage_begin text (Script.page m)).2
      ↔ Js.truthy_opt (Script.sessionId (Script.page m)) = true
        ∧ Forall (λ r, ChatResponse.done r = false) (Script.handled m)
        ∧ Script.blank text = false)
  ∧ (∀ (m : Script.machine) (es : list Script.event),
      Script.conversationDone (Script.page m) = true → (Script.run m es).2 = [])
  ∧ (∀ (render : UseChat.state) (content : string) (now : UseChat.state),
      is_Some (UseChatRender.sendMessage_from render content now).2
      ↔ Js.truthy_opt (UseChat.sessionId render) = true
        ∧ UseChat.isLoading render = false ∧ UseChat.isDone render = false)
  ∧ (∀ (content : string) (st : UseChat.state),
      UseChatRender.sendMessage_from st content st = UseChat.sendMessage_begin content st)
  ∧ (∀ (m : UseChat.machine) (response : ChatResponse.t) (es : list UseChat.event),
      is_Some (UseChat.pending m) → ChatResponse.done response = true →
      (UseChat.run (UseChat.react m (UseChat.Reply (Resolved response))).1 es).2 = []).
Proof.
  split_and!.
  - intros es text _ m. rewrite sendMessage_begin_issues.
    assert (Ht : flag_tracks_done m) by (by apply run_tracks).
    unfold flag_tracks_done in Ht. rewrite Ht.
    by rewrite none_done.
  - intros m es. apply run_done_silent.
  - intros render content now. rewrite sendMessage_from_guard.
    apply hook_sendMessage_issues.
  - intros content st. apply sendMessage_from_self.
  - intros m response es Hp Hd. by apply run_ended, reply_done_ends.
Qed.

Lemma turn_request_guards_witness :
  (UseChat.run
     (UseChat.react awaiting_reply (UseChat.Reply (Resolved farewell_response))).1
     [UseChat.SendMessage "hello"; UseChat.SubmitForm ∅]).2 = []
  ∧ is_Some
      (Script.sendMessage_begin (Plain "hello")
         (Script.page
            (Script.run Script.load.1
               [Script.StartReply (Resolved scheduling_prompt)]).1)).2.
Proof.
  destruct turn_request_guards as (Hscript & _ & _ & _ & Hhook).
  split.
  - apply Hhook; [by eexists | reflexivity].
  - apply (Hscript [Script.StartReply (Resolved scheduling_prompt)] (Plain "hello")).
    + repeat constructor.
    + split_and!; [reflexivity|by repeat constructor|reflexivity].
Defined.

(** C8, as stated, fails for the hook's [sendMessage].  While a reply is
    awaited it issues nothing although a session id is held, no response
    with [done] set has been handled and the trimmed text is not empty;
    and once the reply is in, it issues a request for a text of blanks.
    Nor does a handled response with [done] set silence the hook for
    good: two calls made by the render that followed the greeting both
    issue a request; when the first reply has [done] set and the second
    has not, the flag is cleared again and the next render's call issues
    a third request. *)
Lemma hook_sendMessage_guard_differs :
  let st := UseChat.hook awaiting_reply in
  Js.truthy_opt (UseChat.sessionId st) = true
  ∧ UseChat.isDone st = false
  ∧ Js.truthy (Js.trim "hello") = true
  ∧ (UseChat.sendMessage_begin "hello" st).2 = None
  ∧ Js.truthy (Js.trim "  ") = false
  ∧ (UseChat.sendMessage_begin "  "
       (UseChat.sendMessage_end (Resolved greeting_response) st)).2
    = Some (PostChat (ChatRequest.mk "s-1" (Plain "  ")))
  ∧ let first := UseChatRender.sendMessage_from greeted "yes" greeted in
    let second := UseChatRender.sendMessage_from greeted "yes" first.1 in
    let ended := UseChat.sendMessage_end (Resolved farewell_response) second.1 in
    let resumed := UseChat.sendMessage_end (Resolved greeting_response) ended in
    first.2 = Some (PostChat (ChatRequest.mk "s-1" (Plain "yes")))
    ∧ second.2 = Some (PostChat (ChatRequest.mk "s-1" (Plain "yes")))
    ∧ UseChat.isDone ended = true
    ∧ UseChat.isDone resumed = false
    ∧ (UseChat.sendMessage_begin "again" resumed).2
      = Some (PostChat (ChatRequest.mk "s-1" (Plain "again"))).
Proof. by split_and!. Qed.

(** ** The session table *)

Section Sessions.
Import SessionTable.

Lemma find_None sid rows : find sid rows = None ↔ sid ∉ session_id <$> rows.
Proof.
  induction rows as [|x rows IH]; csimpl.
  - split; [intros _; apply not_elem_of_nil|done].
  - rewrite not_elem_of_cons, <- IH.
    destruct (String.eqb_spec (session_id x) sid) as [->|Hne].
    + split; [done|]. by intros [? _].
    + split; [by intros ?; split|by intros [_ ?]].
Qed.

Lemma update_keys sid doc now rows :
  session_id <$> update sid doc now rows = session_id <$> rows.
Proof.
  induction rows as [|x rows IH]; csimpl; [done|].
  destruct (String.eqb (session_id x) sid); csimpl; by rewrite IH.
Qed.

Lemma find_update sid doc now rows r :
  find sid rows = Some r →
  find sid (update sid doc now rows)
  = Some (mkRow (session_id r) (study_id r) doc (created_at r) now).
Proof.
  induction rows as [|x rows IH]; simpl; [done|].
  destruct (String.eqb (session_id x) sid) eqn:E; simpl; rewrite E.
  - by intros [= <-].
  - done.
Qed.

Lemma find_app_new sid rows r :
  find sid rows = None → session_id r = sid → find sid (rows ++ [r]) = Some r.
Proof.
  intros Hn <-. induction rows as [|x rows IH]; simpl in *.
  - by rewrite String.eqb_refl.
  - destruct (String.eqb (session_id x) (session_id r)); [done|]. by apply IH.
Qed.

Lemma save_keeps_key_unique sid study doc now rows :
  key_unique rows → key_unique (save sid study doc now rows).
Proof.
  unfold key_unique, save. intros H.
  destruct (find sid rows) eqn:E.
  - by rewrite update_keys.
  - rewrite fmap_app. simpl. apply NoDup_app. split_and!; [done| |apply NoDup_singleton].
    intros x Hx Hx'. apply list_elem_of_singleton in Hx'. subst.
    by apply find_None in E.
Qed.

Lemma load_save sid study doc now rows :
  load sid (save sid study doc now rows) = Some doc.
Proof.
  unfold load, save. destruct (find sid rows) as [r|] eqn:E.
  - by rewrite (find_update _ _ _ _ r).
  - by rewrite (find_app_new sid rows (mkRow sid study doc now now)).
Qed.

End Sessions.

(** C6. The session table has exactly the five columns [session_id],
    [study_id], [state], [created_at] and [updated_at]; [session_id] is
    its primary key and [study_id] (as every column) is not null; no
    column holds a version token.  A save therefore has nothing to
    compare: it is accepted whatever was stored, keeps session ids unique,
    and a load returns the state written last. *)
Theorem session_record_last_write_wins :
  SessionTable.col_name <$> SessionTable.rrc_sessions
    = ["session_id"; "study_id"; "state"; "created_at"; "updated_at"]
  ∧ SessionTable.col_name
      <$> List.filter SessionTable.primary_key SessionTable.rrc_sessions
    = ["session_id"]
  ∧ Forall (λ c, SessionTable.is_not_null c = true) SessionTable.rrc_sessions
  ∧ ¬ ("version" ∈ SessionTable.col_name <$> SessionTable.rrc_sessions)
  ∧ (∀ sid study1 study2 doc1 doc2 t1 t2 rows,
        SessionTable.key_unique rows →
        let rows' :=
          SessionTable.save sid study2 doc2 t2
            (SessionTable.save sid study1 doc1 t1 rows) in
        SessionTable.load sid rows' = Some doc2
        ∧ SessionTable.key_unique rows').
Proof.
  split_and!; [reflexivity|reflexivity| | |].
  - unfold SessionTable.rrc_sessions. by repeat constructor.
  - simpl. intros H.
    repeat (apply elem_of_cons in H as [H|H]; [done|]). by apply elem_of_nil in H.
  - intros sid study1 study2 doc1 doc2 t1 t2 rows Hu rows'. split.
    + apply load_save.
    + by do 2 apply save_keeps_key_unique.
Qed.

Lemma session_record_last_write_wins_witness :
  SessionTable.load "s-1"
    (SessionTable.save "s-1" "zyn" (JStr "second") 2
       (SessionTable.save "s-1" "zyn" (JStr "first") 1 []))
  = Some (JStr "second").
Proof.
  apply (session_record_last_write_wins). unfold SessionTable.key_unique. simpl.
  apply NoDup_nil_2.
Defined.

(** ** The eligibility engine *)

Section Engine.
Import Eligibility.

Lemma find_first {A} (p : A → bool) (l : list A) (x : A) :
  List.find p l = Some x →
  ∃ pre post, l = pre ++ x :: post ∧ p x = true ∧ Forall (λ y, p y = false) pre.
Proof.
  induction l as [|y l IH]; simpl; [done|].
  destruct (p y) eqn:E.
  - intros [= <-]. by exists [], l.
  - intros H. destruct (IH H) as (pre & post & -> & Hx & Hpre).
    exists (y :: pre), post. split_and!; [done|done|by constructor].
Qed.

Lemma find_nothing {A} (p : A → bool) (l : list A) :
  List.find p l = None ↔ ∀ x, x ∈ l → p x = false.
Proof.
  induction l as [|y l IH]; simpl.
  - split; [intros _ x Hx; by apply elem_of_nil in Hx|done].
  - destruct (p y) eqn:E.
    + split; [done|]. intros H. specialize (H y (list_elem_of_here _ _)). congruence.
    + rewrite IH. split.
      * intros H x Hx. apply elem_of_cons in Hx as [->|Hx]; [done|by apply H].
      * intros H x Hx. apply H. by apply list_elem_of_further.
Qed.

Lemma missing_none (i : input) (rules : list rule) :
  missing_fields i rules = []
  ↔ ∀ r, r ∈ rules → is_Some (lookup_field i (field r)).
Proof.
  unfold missing_fields. induction rules as [|r rules IH]; simpl.
  - split; [intros _ x Hx; by apply elem_of_nil in Hx|done].
  - unfold absent at 1. case_bool_decide as Hr; csimpl.
    + split; [done|]. intros H. specialize (H r (list_elem_of_here _ _)).
      rewrite Hr in H. by destruct H.
    + rewrite IH. split.
      * intros H x Hx. apply elem_of_cons in Hx as [->|Hx]; [|by apply H].
        by destruct (lookup_field i (field r)).
      * intros H x Hx. apply H. by apply list_elem_of_further.
Qed.

Lemma missing_names (i : input) (rules : list rule) (k : string) :
  k ∈ missing_fields i rules
  ↔ ∃ r, r ∈ rules ∧ field r = k ∧ lookup_field i k = None.
Proof.
  unfold missing_fields. rewrite list_elem_of_fmap. split.
  - intros (r & -> & Hr). apply list_elem_of_In, filter_In in Hr as [Hr Ha].
    exists r. split_and!; [by apply list_elem_of_In|done|].
    unfold absent in Ha. by apply bool_decide_eq_true in Ha.
  - intros (r & Hr & <- & Hk). exists r. split; [done|].
    apply list_elem_of_In, filter_In. split; [by apply list_elem_of_In|].
    unfold absent. by apply bool_decide_eq_true.
Qed.

Lemma evaluate_agrees (i1 i2 : input) (rules : list rule) :
  (∀ r, r ∈ rules → lookup_field i1 (field r) = lookup_field i2 (field r)) →
  evaluate i1 rules = evaluate i2 rules.
Proof.
  intros H. unfold evaluate.
  assert (Hm : missing_fields i1 rules = missing_fields i2 rules).
  { unfold missing_fields. f_equal. apply filter_ext_in. intros r Hr.
    unfold absent. by rewrite H by by apply list_elem_of_In. }
  assert (He : first_matching_exclude i1 rules = first_matching_exclude i2 rules).
  { unfold first_matching_exclude.
    clear Hm. induction rules as [|r rules IH]; simpl; [done|].
    unfold matches at 1 3. rewrite (H r) by apply list_elem_of_here.
    destruct (_ && _); [done|]. apply IH. intros x Hx. apply H.
    by apply list_elem_of_further. }
  assert (Hi : first_failed_include i1 rules = first_failed_include i2 rules).
  { unfold first_failed_include.
    clear Hm He. induction rules as [|r rules IH]; simpl; [done|].
    unfold matches at 1 3. rewrite (H r) by apply list_elem_of_here.
    destruct (_ && _); [done|]. apply IH. intros x Hx. apply H.
    by apply list_elem_of_further. }
  by rewrite Hm, He, Hi.
Qed.

Lemma eligible_when_present (i : input) (rules : list rule) :
  missing_fields i rules = [] →
  (evaluate i rules = Eligible
   ↔ (∀ r, r ∈ rules → is_include r = true → matches i r = true)
     ∧ (∀ r, r ∈ rules → is_exclude r = true → matches i r = false)).
Proof.
  intros Hm. unfold evaluate. rewrite Hm.
  destruct (first_matching_exclude i rules) as [r|] eqn:He.
  { split; [done|]. intros [_ Hex].
    apply find_first in He as (pre & post & -> & Hr & _).
    apply andb_true_iff in Hr as [Hr1 Hr2].
    rewrite Hex in Hr2; [done| |done].
    apply elem_of_app. right. apply list_elem_of_here. }
  destruct (first_failed_include i rules) as [r|] eqn:Hi.
  { split; [done|]. intros [Hin _].
    apply find_first in Hi as (pre & post & -> & Hr & _).
    apply andb_true_iff in Hr as [Hr1 Hr2].
    rewrite Hin in Hr2; [done| |done].
    apply elem_of_app. right. apply list_elem_of_here. }
  split; [intros _|done].
  pose proof (proj1 (find_nothing _ _) He) as He'.
  pose proof (proj1 (find_nothing _ _) Hi) as Hi'.
  split; intros r Hr Hk.
  - specialize (Hi' r Hr). cbv beta in Hi'. rewrite Hk in Hi'. simpl in Hi'.
    by apply negb_false_iff in Hi'.
  - specialize (He' r Hr). cbv beta in He'. by rewrite Hk in He'.
Qed.

Lemma eligible_iff (i : input) (rules : list rule) :
  evaluate i rules = Eligible
  ↔ missing_fields i rules = []
    ∧ (∀ r, r ∈ rules → is_include r = true → matches i r = true)
    ∧ (∀ r, r ∈ rules → is_exclude r = true → matches i r = false).
Proof.
  destruct (missing_fields i rules) as [|k ks] eqn:Hm.
  - rewrite (eligible_when_present i rules Hm). split; [done|by intros [_ ?]].
  - split; [|by intros [? _]]. unfold evaluate. by rewrite Hm.
Qed.

Lemma undetermined_when_absent (i : input) (rules : list rule) (r : rule) :
  r ∈ rules → lookup_field i (field r) = None →
  ∃ missing, evaluate i rules = Undetermined missing
             ∧ field r ∈ missing
             ∧ ∀ k, k ∈ missing → lookup_field i k = None.
Proof.
  intros Hr Hk.
  assert (Hin : field r ∈ missing_fields i rules).
  { apply missing_names. by exists r. }
  unfold evaluate.
  destruct (missing_fields i rules) as [|k ks] eqn:Hm.
  { by apply elem_of_nil in Hin. }
  exists (k :: ks). split_and!; [done|done|].
  intros k' Hk'. rewrite <- Hm in Hk'.
  by apply missing_names in Hk' as (? & _ & _ & ?).
Qed.

Lemma ineligible_reason (i : input) (rules : list rule) (code : string) :
  evaluate i rules = Ineligible code →
  missing_fields i rules = []
  ∧ match first_matching_exclude i rules with
    | Some r =>
        code = reason r
        ∧ ∃ before after,
            rules = before ++ r :: after
            ∧ is_exclude r = true ∧ matches i r = true
            ∧ Forall (λ r', is_exclude r' = true → matches i r' = false) before
    | None =>
        ∃ r before after,
          code = reason r
          ∧ rules = before ++ r :: after
          ∧ is_include r = true ∧ matches i r = false
          ∧ Forall (λ r', is_include r' = true → matches i r' = true) before
    end.
Proof.
  unfold evaluate.
  destruct (missing_fields i rules) as [|k ks]; [|done]. intros Hev. split; [done|].
  destruct (first_matching_exclude i rules) as [r|] eqn:He.
  - split; [congruence|].
    apply find_first in He as (pre & post & -> & Hr & Hpre).
    apply andb_true_iff in Hr as [Hr1 Hr2].
    exists pre, post. split_and!; try done.
    eapply Forall_impl; [exact Hpre|]. simpl. intros r' H' Hx.
    by rewrite Hx in H'.
  - destruct (first_failed_include i rules) as [r|] eqn:Hi; [|done].
    apply find_first in Hi as (pre & post & -> & Hr & Hpre).
    apply andb_true_iff in Hr as [Hr1 Hr2]. apply negb_true_iff in Hr2.
    exists r, pre, post. split_and!; try done; [congruence|].
    eapply Forall_impl; [exact Hpre|]. simpl. intros r' H' Hx.
    rewrite Hx in H'. simpl in H'. by apply negb_false_iff in H'.
Qed.

End Engine.

(** C4, as the engine is specified.  The outcome is eligible iff no rule
    refers to an absent field, every include-required rule is satisfied
    and no exclude-if-matched rule matches.  A rule whose field is
    absent makes the outcome undetermined, with that field among the
    named ones (all of them absent), so never ineligible.  An ineligible
    outcome arises only with every referenced field present; it carries
    the reason of the first matching exclude rule in declared order when
    an exclude rule matches, and otherwise that of the first unsatisfied
    include-required rule.  The outcome depends on the input only through
    the values of the referenced fields: inputs that agree there get the
    same outcome and the same reason. *)
Theorem eligibility_outcome (i : Eligibility.input) (rules : list Eligibility.rule) :
  (Eligibility.evaluate i rules = Eligibility.Eligible
   ↔ Eligibility.missing_fields i rules = []
     ∧ (∀ r, r ∈ rules → Eligibility.is_include r = true →
             Eligibility.matches i r = true)
     ∧ (∀ r, r ∈ rules → Eligibility.is_exclude r = true →
             Eligibility.matches i r = false))
  ∧ (Eligibility.missing_fields i rules = []
     ↔ ∀ r, r ∈ rules → is_Some (Eligibility.lookup_field i (Eligibility.field r)))
  ∧ (∀ r, r ∈ rules →
        Eligibility.lookup_field i (Eligibility.field r) = None →
        ∃ missing, Eligibility.evaluate i rules = Eligibility.Undetermined missing
                   ∧ Eligibility.field r ∈ missing
                   ∧ ∀ k, k ∈ missing → Eligibility.lookup_field i k = None)
  ∧ (∀ code, Eligibility.evaluate i rules = Eligibility.Ineligible code →
        Eligibility.missing_fields i rules = []
        ∧ match Eligibility.first_matching_exclude i rules with
          | Some r =>
              code = Eligibility.reason r
              ∧ ∃ before after,
                  rules = before ++ r :: after
                  ∧ Eligibility.is_exclude r = true
                  ∧ Eligibility.matches i r = true
                  ∧ Forall (λ r', Eligibility.is_exclude r' = true →
                                  Eligibility.matches i r' = false) before
          | None =>
              ∃ r before after,
                code = Eligibility.reason r
                ∧ rules = before ++ r :: after
                ∧ Eligibility.is_include r = true
                ∧ Eligibility.matches i r = false
                ∧ Forall (λ r', Eligibility.is_include r' = true →
                                Eligibility.matches i r' = true) before
          end)
  ∧ (∀ r, Eligibility.missing_fields i rules = [] →
          Eligibility.first_matching_exclude i rules = Some r →
          Eligibility.evaluate i rules = Eligibility.Ineligible (Eligibility.reason r))
  ∧ (∀ i', (∀ r, r ∈ rules →
                 Eligibility.lookup_field i (Eligibility.field r)
                 = Eligibility.lookup_field i' (Eligibility.field r)) →
           Eligibility.evaluate i rules = Eligibility.evaluate i' rules).
Proof.
  split_and!.
  - apply eligible_iff.
  - apply missing_none.
  - intros r. apply undetermined_when_absent.
  - intros code. apply ineligible_reason.
  - intros r Hm He. unfold Eligibility.evaluate. by rewrite Hm, He.
  - intros i'. apply evaluate_agrees.
Qed.

Lemma eligibility_outcome_witness :
  Eligibility.evaluate sample_participant sample_rules
  = Eligibility.Ineligible "pregnant_or_nursing".
Proof.
  destruct (eligibility_outcome sample_participant sample_rules)
    as (_ & _ & _ & _ & Hfirst & _).
  apply (Hfirst rule_pregnant); reflexivity.
Defined.

(** C4, as stated, fails.  With the one rule that excludes on a
    pregnancy answer and a participant without that answer, every
    include-required rule is satisfied (there is none) and no
    exclude-if-matched rule matches, yet the outcome is undetermined,
    not eligible; no engine can do otherwise, since the claim asks for
    both outcomes at once there.  And the participant of 18 is
    ineligible by the age rule, an include-required one, with no exclude
    rule in sight whose reason the outcome could carry. *)
Lemma eligibility_literal_iff_fails :
  let nobody := Eligibility.mkInput ∅ [] in
  Eligibility.evaluate nobody [rule_pregnant]
  = Eligibility.Undetermined ["pregnant_or_nursing_or_planning"]
  ∧ (∀ r, r ∈ [rule_pregnant] → Eligibility.is_include r = true →
          Eligibility.matches nobody r = true)
  ∧ (∀ r, r ∈ [rule_pregnant] → Eligibility.is_exclude r = true →
          Eligibility.matches nobody r = false)
  ∧ Eligibility.evaluate nobody [rule_pregnant] ≠ Eligibility.Eligible
  ∧ ¬ (∃ engine : Eligibility.input → list Eligibility.rule → Eligibility.outcome,
         (∀ i rules,
             engine i rules = Eligibility.Eligible
             ↔ (∀ r, r ∈ rules → Eligibility.is_include r = true →
                     Eligibility.matches i r = true)
               ∧ (∀ r, r ∈ rules → Eligibility.is_exclude r = true →
                       Eligibility.matches i r = false))
         ∧ (∀ i rules r, r ∈ rules →
               Eligibility.lookup_field i (Eligibility.field r) = None →
               ∃ missing, engine i rules = Eligibility.Undetermined missing))
  ∧ Eligibility.evaluate underage_participant [rule_age]
    = Eligibility.Ineligible "age_out_of_range"
  ∧ Eligibility.first_matching_exclude underage_participant [rule_age] = None.
Proof.
  intros nobody.
  assert (Hin : ∀ r, r ∈ [rule_pregnant] → Eligibility.is_include r = true →
                     Eligibility.matches nobody r = true).
  { intros r Hr. apply list_elem_of_singleton in Hr as ->. done. }
  assert (Hex : ∀ r, r ∈ [rule_pregnant] → Eligibility.is_exclude r = true →
                     Eligibility.matches nobody r = false).
  { intros r Hr. apply list_elem_of_singleton in Hr as ->. done. }
  split_and!; try done.
  intros (engine & Hiff & Habsent).
  destruct (Habsent nobody [rule_pregnant] rule_pregnant) as [missing Hm];
    [apply list_elem_of_here|done|].
  pose proof (proj2 (Hiff nobody [rule_pregnant]) (conj Hin Hex)) as He.
  congruence.
Qed.

(** ** The model at work *)

Example formatPhone_ten_digits :
  IdentityForm.formatPhone "9195550100" = "919-555-0100".
Proof. reflexivity. Qed.

Example formatPhone_extra_digits :
  IdentityForm.formatPhone "(919) 555-0100 ext 42" = "919-555-0100".
Proof. reflexivity. Qed.

Example formatPhone_partial :
  IdentityForm.formatPhone "9195" = "919-5" ∧ IdentityForm.formatPhone "91" = "91".
Proof. by split. Qed.

Example trim_both_ends :
  Js.trim (String (ascii_of_nat 9) " 27601  ") = "27601".
Proof. reflexivity. Qed.

Example startsWith_prescreen :
  Js.startsWith "prescreen:smoker" "prescreen:" = true
  ∧ Js.startsWith "prescreen" "prescreen:" = false.
Proof. by split. Qed.

Example toggle_twice_clears :
  SchedulingForm.current (SchedulingForm.after_clicks some_clicks) "preferred_days"
  = ["Friday"].
Proof. reflexivity. Qed.

Example scheduling_submit_needs_every_field :
  SchedulingForm.handleSubmit [days_field; times_field]
    (SchedulingForm.after_clicks [("preferred_days", "Monday")]) = None.
Proof. reflexivity. Qed.

Example undetermined_names_field :
  Eligibility.evaluate (Eligibility.mkInput ∅ []) sample_rules
  = Eligibility.Undetermined
      ["age"; "pregnant_or_nursing_or_planning"; "cigarettes_per_day"].
Proof. reflexivity. Qed.

(** ** Further properties of the components *)

Section Trimming.
Import Js.

Lemma drop_space_idem l : drop_space (drop_space l) = drop_space l.
Proof.
  induction l as [|c l IH]; simpl; [done|].
  destruct (is_space c) eqn:E; [done|]. simpl. by rewrite E.
Qed.

Lemma drop_space_keeps c l : is_space c = false → drop_space (c :: l) = c :: l.
Proof. intros E. simpl. by rewrite E. Qed.

Lemma drop_space_snoc x c :
  is_space c = false → ∃ x', drop_space (x ++ [c]) = x' ++ [c].
Proof.
  intros E. induction x as [|d x IH]; simpl.
  - rewrite E. by exists [].
  - destruct (is_space d); [done|]. by exists (d :: x).
Qed.

Lemma drop_space_cases l :
  drop_space l = [] ∨ ∃ c r, drop_space l = c :: r ∧ is_space c = false.
Proof.
  induction l as [|c l IH]; simpl; [by left|].
  destruct (is_space c) eqn:E; [done|]. right. by exists c, l.
Qed.

Lemma str_chars s : str (chars s) = s.
Proof. apply string_of_list_ascii_of_string. Qed.

Lemma chars_of_str l : chars (str l) = l.
Proof. apply list_ascii_of_string_of_list_ascii. Qed.

Lemma trim_idem s : trim (trim s) = trim s.
Proof.
  unfold trim. rewrite chars_of_str. f_equal.
  set (a := drop_space (chars s)).
  assert (Ht : drop_space (rev (drop_space (rev a))) = rev (drop_space (rev a))).
  { destruct (drop_space_cases (chars s)) as [H|(c & r & H & E)];
      fold a in H; rewrite H; [done|].
    simpl. destruct (drop_space_snoc (rev r) c E) as [x' ->].
    rewrite rev_app_distr. simpl. by rewrite E. }
  by rewrite Ht, rev_involutive, drop_space_idem.
Qed.

Lemma truthy_spec s : truthy s = true ↔ s ≠ "".
Proof. by destruct s. Qed.

Lemma trim_empty : trim "" = "".
Proof. reflexivity. Qed.

End Trimming.

(** X1. The chat input sends exactly when its Send button is enabled.
    What it sends is the trimmed text, which is not empty and is its own
    trim; the box is then cleared, so that sending again sends nothing.
    Shift+Enter never sends. *)
Theorem chat_input_sends_trimmed_once (input : string) (disabled : bool) :
  (is_Some (ChatInput.handleSend input disabled)
   ↔ ChatInputControls.buttonDisabled input disabled = false)
  ∧ (∀ s, ChatInput.handleSend input disabled = Some s →
          s = Js.trim input ∧ s ≠ "" ∧ Js.trim s = s
          ∧ ChatInput.handleSend
              (ChatInputControls.inputAfterSend input disabled) disabled = None)
  ∧ (∀ key, ChatInputControls.handleKeyDown key true input disabled = None)
  ∧ ChatInputControls.handleKeyDown "Enter" false input disabled
    = ChatInput.handleSend input disabled.
Proof.
  unfold ChatInput.handleSend, ChatInputControls.buttonDisabled,
    ChatInputControls.inputAfterSend, ChatInputControls.handleKeyDown.
  split_and!.
  - destruct (Js.truthy (Js.trim input)), disabled; simpl;
      split; try done; try (by intros [? [=]]); eauto.
  - intros s. destruct (Js.truthy (Js.trim input)) eqn:Et; [|done].
    destruct disabled; simpl; [done|]. intros [= <-].
    split_and!; [done|by apply truthy_spec|apply trim_idem|done].
  - intros key. by rewrite andb_false_r.
  - done.
Qed.

Lemma chat_input_sends_trimmed_once_witness :
  ChatInput.handleSend (ChatInputControls.inputAfterSend "  1234 " false) false = None.
Proof.
  destruct (chat_input_sends_trimmed_once "  1234 " false) as (_ & Hsent & _).
  apply (Hsent "1234"). reflexivity.
Defined.

Section PhoneTyping.
Import Js IdentityForm.

Lemma length_str l : String.length (str l) = length l.
Proof. induction l as [|c l IH]; simpl; [done|]. by rewrite IH. Qed.

Lemma chars_append s t : chars (s +:+ t) = chars s ++ chars t.
Proof. induction s as [|c s IH]; simpl; [done|]. by rewrite IH. Qed.

Lemma str_nil l : str l = "" ↔ l = [].
Proof. destruct l; simpl; split; congruence. Qed.

Lemma group_length d : (length (group d) ≤ 12)%nat.
Proof.
  unfold group, slice, slice_from, dash.
  destruct (length d <=? 3)%nat eqn:E3; [apply Nat.leb_le in E3; lia|].
  destruct (length d <=? 6)%nat eqn:E6.
  - apply Nat.leb_le in E6.
    rewrite ?length_app, ?length_take, ?length_drop. cbn [length]. lia.
  - rewrite ?length_app, ?length_take, ?length_drop. cbn [length]. lia.
Qed.

Lemma group_chars d :
  Forall (λ c, is_digit c = true) d →
  Forall (λ c, is_digit c = true ∨ c = "-"%char) (group d).
Proof.
  intros Hd.
  assert (Hw : ∀ l, Forall (λ c, is_digit c = true) l →
                    Forall (λ c, is_digit c = true ∨ c = "-"%char) l).
  { intros l Hl. eapply Forall_impl; [exact Hl|]. by left. }
  assert (Hdash : Forall (λ c, is_digit c = true ∨ c = "-"%char) dash).
  { unfold dash. apply Forall_singleton. by right. }
  unfold group, slice, slice_from.
  destruct (length d <=? 3)%nat; [by apply Hw|].
  destruct (length d <=? 6)%nat;
    repeat (apply Forall_app; split); try done;
    apply Hw; try apply Forall_take; try apply Forall_drop; done.
Qed.

Lemma group_nil d : group d = [] ↔ d = [].
Proof.
  split; [|by intros ->].
  unfold group, slice, slice_from, dash.
  destruct (length d <=? 3)%nat; [done|].
  destruct (length d <=? 6)%nat; intros H;
    apply app_eq_nil in H as [_ H]; done.
Qed.

Lemma group_full d e : (10 ≤ length d)%nat → group (d ++ e) = group d.
Proof.
  intros H. rewrite <- (group_take10 (d ++ e)), <- (group_take10 d).
  by rewrite take_app_le by lia.
Qed.

End PhoneTyping.

(** X2. The phone box never holds more than twelve characters, each a
    digit or a dash; it is empty exactly when the typed text has no
    digit; and once ten digits have been typed, whatever is typed after
    them changes nothing. *)
Theorem formatPhone_bounded_and_saturating (s : string) :
  (String.length (IdentityForm.formatPhone s) ≤ 12)%nat
  ∧ Forall (λ c, Js.is_digit c = true ∨ c = "-"%char)
      (Js.chars (IdentityForm.formatPhone s))
  ∧ (IdentityForm.formatPhone s = "" ↔ IdentityForm.digits_of s = [])
  ∧ (∀ t, (10 ≤ length (IdentityForm.digits_of s))%nat →
          IdentityForm.formatPhone (s +:+ t) = IdentityForm.formatPhone s).
Proof.
  unfold IdentityForm.formatPhone, IdentityForm.digits_of. split_and!.
  - rewrite length_str. apply group_length.
  - rewrite chars_of_str. apply group_chars, strip_is_digits.
  - by rewrite str_nil, group_nil.
  - intros t H. by rewrite chars_append, strip_app, group_full.
Qed.

Lemma formatPhone_bounded_and_saturating_witness :
  IdentityForm.formatPhone ("919-555-0100" +:+ "77") = IdentityForm.formatPhone "919-555-0100".
Proof.
  apply (formatPhone_bounded_and_saturating "919-555-0100"). simpl. lia.
Defined.

(** X3. The identity form submits exactly when the e-mail box is not
    empty and the text typed into the phone box has at least one digit
    (a complete number is not required).  The payload then has the two
    entries [email], as typed, and [phone], as formatted, and no other. *)
Theorem identity_form_submission (st : IdentityForm.state) (typed : string) :
  let st' := IdentityForm.setPhone typed st in
  (is_Some (IdentityForm.handleSubmit st')
   ↔ IdentityForm.email st ≠ "" ∧ IdentityForm.digits_of typed ≠ [])
  ∧ (∀ data, IdentityForm.handleSubmit st' = Some data →
        data !! "email" = Some (FStr (IdentityForm.email st))
        ∧ data !! "phone" = Some (FStr (IdentityForm.formatPhone typed))
        ∧ dom data = {["email"; "phone"]}).
Proof.
  intros st'. unfold IdentityForm.handleSubmit. subst st'. simpl.
  pose proof (truthy_spec (IdentityForm.email st)) as He.
  pose proof (truthy_spec (IdentityForm.formatPhone typed)) as Hp.
  assert (Hnil : IdentityForm.formatPhone typed = "" ↔ IdentityForm.digits_of typed = []).
  { unfold IdentityForm.formatPhone, IdentityForm.digits_of. by rewrite str_nil, group_nil. }
  rewrite Hnil in Hp.
  assert (Hiff : Js.truthy (IdentityForm.email st)
                 && Js.truthy (IdentityForm.formatPhone typed) = true
                 ↔ IdentityForm.email st ≠ "" ∧ IdentityForm.digits_of typed ≠ []).
  { by rewrite andb_true_iff, He, Hp. }
  split.
  - rewrite <- Hiff.
    destruct (Js.truthy (IdentityForm.email st)
              && Js.truthy (IdentityForm.formatPhone typed));
      split; [eauto|eauto|by intros [? [=]]|done].
  - intros data.
    destruct (Js.truthy (IdentityForm.email st) && _); [|done].
    intros [= <-]. split_and!.
    + by rewrite lookup_insert_eq.
    + rewrite lookup_insert_ne by done. by rewrite lookup_insert_eq.
    + rewrite !dom_insert_L, dom_empty_L. set_solver.
Qed.

Lemma after_picks_last (picks : list string) :
  PrescreenFormControls.after_picks picks = last picks.
Proof.
  unfold PrescreenFormControls.after_picks.
  induction picks as [|o picks IH] using rev_ind; [done|].
  by rewrite foldl_snoc, last_snoc.
Qed.

(** X4. Whatever radios of a prescreen question are chosen in turn, the
    answer submitted is the one chosen last, is one of the options on
    offer and is not the empty string; the button is disabled exactly
    when submitting would send nothing. *)
Theorem prescreen_answer_is_last_pick (options picks : list string) :
  Forall (λ o, o ∈ options) picks →
  let selected := PrescreenFormControls.after_picks picks in
  (∀ s, PrescreenForm.handleSubmit selected = Some s →
        last picks = Some s ∧ s ∈ options ∧ s ≠ "")
  ∧ (PrescreenForm.handleSubmit selected = None
     ↔ PrescreenFormControls.buttonDisabled selected = true).
Proof.
  intros Hp selected. subst selected. rewrite after_picks_last.
  unfold PrescreenForm.handleSubmit, PrescreenFormControls.buttonDisabled.
  destruct (last picks) as [o|] eqn:El; simpl.
  - split.
    + intros s. destruct (Js.truthy o) eqn:Et; [|done]. intros [= <-].
      split_and!; [done| |by apply truthy_spec].
      apply last_Some in El as [l' ->].
      apply Forall_app in Hp as [_ Hp]. by rewrite Forall_singleton in Hp.
    + by destruct (Js.truthy o).
  - by split.
Qed.

Lemma prescreen_answer_is_last_pick_witness :
  last ["Yes"; "No"] = Some "No" ∧ "No" ∈ ["Yes"; "No"] ∧ "No" ≠ "".
Proof.
  apply (prescreen_answer_is_last_pick ["Yes"; "No"] ["Yes"; "No"]).
  - repeat constructor.
  - reflexivity.
Defined.

Section LastWins.

(** Writing entries into an object one after the other: each key ends
    up with the value written last. *)
Lemma foldl_insert_last {A B} (key : A → string) (val : A → B) (l : list A) (n : string) :
  foldl (λ (m : gmap string B) a, <[key a := val a]> m) ∅ l !! n
  = val <$> last (filter (λ a, key a = n) l).
Proof.
  induction l as [|x l IH] using rev_ind; [done|].
  rewrite foldl_snoc, filter_app.
  destruct (decide (key x = n)) as [<-|Hne].
  - rewrite lookup_insert_eq, filter_cons_True by done.
    by rewrite filter_nil, last_snoc.
  - rewrite lookup_insert_ne, filter_cons_False by done.
    by rewrite filter_nil, app_nil_r.
Qed.

Lemma last_filter_Some {A} (P : A → Prop) `{∀ x, Decision (P x)} (l : list A) :
  is_Some (last (filter P l)) ↔ ∃ x, x ∈ l ∧ P x.
Proof.
  rewrite last_is_Some. split.
  - intros Hne. destruct (filter P l) as [|x r] eqn:E; [done|].
    exists x. assert (x ∈ filter P l) as Hin by (rewrite E; apply list_elem_of_here).
    apply list_elem_of_filter in Hin as [? ?]. done.
  - intros (x & Hx & HP) E.
    assert (x ∈ filter P l) as Hin by by apply list_elem_of_filter.
    rewrite E in Hin. by apply elem_of_nil in Hin.
Qed.

End LastWins.

(** X5. In the profile form every field holds the value typed into it
    last.  Submitting goes through exactly when the button is enabled;
    the payload then carries, for each field of the form, the value typed
    last into it, as typed and not blank; and if only fields of the form
    were typed into, the payload has one entry per field name and no
    other. *)
Theorem profile_form_payload
    (fields : list FieldDescriptor.t) (cs : list (string * string)) :
  let formData := ProfileFormControls.after_changes cs in
  (∀ n, formData !! n = snd <$> last (filter (λ c, c.1 = n) cs))
  ∧ (is_Some (ProfileForm.handleSubmit fields formData)
     ↔ ProfileFormControls.isValid fields formData = true)
  ∧ (∀ data, ProfileForm.handleSubmit fields formData = Some data →
       (∀ f, f ∈ fields →
          ∃ v, last (filter (λ c, c.1 = FieldDescriptor.name f) cs)
               = Some (FieldDescriptor.name f, v)
               ∧ data !! FieldDescriptor.name f = Some (FStr v)
               ∧ Js.trim v ≠ "")
       ∧ (Forall (λ c, c.1 ∈ FieldDescriptor.name <$> fields) cs →
          dom data = list_to_set (FieldDescriptor.name <$> fields))).
Proof.
  intros formData.
  assert (Hlook : ∀ n, formData !! n = snd <$> last (filter (λ c, c.1 = n) cs)).
  { intros n. apply (foldl_insert_last fst snd). }
  split_and!; [done| |].
  - unfold ProfileForm.handleSubmit, ProfileFormControls.isValid.
    destruct (forallb _ _); split; [eauto|eauto|by intros [? [=]]|done].
  - intros data. unfold ProfileForm.handleSubmit.
    destruct (forallb (ProfileForm.filled formData) fields) eqn:Hall; [|done].
    intros [= <-]. rewrite forallb_forall in Hall. split.
    + intros f Hf. apply list_elem_of_In, Hall in Hf.
      unfold ProfileForm.filled in Hf. rewrite lookup_fmap.
      destruct (formData !! FieldDescriptor.name f) as [v|] eqn:Ev; [|done].
      exists v. split_and!; [|done|by apply truthy_spec].
      rewrite Hlook in Ev.
      destruct (last (filter _ cs)) as [[n v']|] eqn:El; [|done].
      simpl in Ev. injection Ev as ->. f_equal. f_equal.
      apply last_Some_elem_of, list_elem_of_filter in El as [Hn _]. done.
    + intros Hcs. apply set_eq. intros n.
      rewrite dom_fmap, elem_of_dom, elem_of_list_to_set, Hlook.
      rewrite fmap_is_Some, last_filter_Some. split.
      * intros (c & Hc & <-). rewrite Forall_forall in Hcs. by apply Hcs.
      * intros Hn. apply list_elem_of_fmap in Hn as (f & -> & Hf).
        apply list_elem_of_In, Hall in Hf.
        unfold ProfileForm.filled in Hf.
        destruct (formData !! FieldDescriptor.name f) eqn:Ev; [|done].
        rewrite Hlook in Ev.
        assert (is_Some (last (filter (λ c, c.1 = FieldDescriptor.name f) cs))) as Hs.
        { destruct (last _); [eauto|done]. }
        by apply last_filter_Some in Hs.
Qed.

Lemma profile_form_payload_witness :
  dom (FStr <$> ProfileFormControls.after_changes
                  [("zip_code", "2760"); ("zip_code", "27601")])
  = list_to_set (FieldDescriptor.name <$> [zip_field]).
Proof.
  destruct (profile_form_payload [zip_field] [("zip_code", "2760"); ("zip_code", "27601")])
    as (_ & _ & Hdata).
  apply Hdata; [reflexivity|].
  repeat constructor.
Defined.

(** X6. A click on a check box of the scheduling form flips that box
    and leaves every other box, of this field or another, as it was. *)
Theorem toggle_flips_one_box
    (selections : gmap string (list string)) (fieldName option : string) :
  (option ∈ SchedulingForm.current
              (SchedulingForm.handleToggle fieldName option selections) fieldName
   ↔ option ∉ SchedulingForm.current selections fieldName)
  ∧ (∀ fieldName' option',
        (fieldName', option') ≠ (fieldName, option) →
        (option' ∈ SchedulingForm.current
                     (SchedulingForm.handleToggle fieldName option selections) fieldName'
         ↔ option' ∈ SchedulingForm.current selections fieldName')).
Proof.
  split.
  - rewrite current_toggle_same. case_bool_decide as Hin.
    + rewrite list_elem_of_filter. split; [by intros [? _]|done].
    + rewrite elem_of_app, list_elem_of_singleton. split; [done|by right].
  - intros f' o' Hne. destruct (decide (fieldName = f')) as [<-|Hf].
    + assert (o' ≠ option) by congruence.
      rewrite current_toggle_same. case_bool_decide.
      * rewrite list_elem_of_filter. split; [by intros [_ ?]|done].
      * rewrite elem_of_app, list_elem_of_singleton. split; [by intros [?|?]|by left].
    + by rewrite current_toggle_other.
Qed.

Lemma toggle_flips_one_box_witness :
  "Friday" ∈ SchedulingForm.current
    (SchedulingForm.handleToggle "preferred_days" "Monday"
       (SchedulingForm.after_clicks [("preferred_days", "Friday")])) "preferred_days".
Proof.
  apply (toggle_flips_one_box _ "preferred_days" "Monday"); [done|].
  apply list_elem_of_here.
Defined.

Section SchedulingPayload.
Import SchedulingForm.

Lemma after_clicks_keys (cs : list (string * string)) (k : string) :
  is_Some (after_clicks cs !! k) → k ∈ cs.*1.
Proof.
  unfold after_clicks.
  induction cs as [|c cs IH] using rev_ind.
  - simpl. rewrite lookup_empty. by intros [? [=]].
  - rewrite foldl_snoc, fmap_app, elem_of_app. csimpl.
    rewrite list_elem_of_singleton.
    destruct (decide (c.1 = k)) as [<-|Hne]; [by right|].
    intros H. left. apply IH. revert H. unfold handleToggle.
    case_bool_decide; by rewrite lookup_insert_ne.
Qed.

End SchedulingPayload.

(** X7. In a scheduling form none of whose fields is named like a
    property of [Object.prototype], whatever boxes are clicked in
    whatever order: the form draws one group of check boxes per field,
    one box per listed option, ticked iff selected; the selection under
    every name is a list without repetition of options listed for that
    name; submitting goes through exactly when every field has a
    non-empty selection; and the payload then has one entry per field
    name of the form and no other, each a non-empty array without
    repetition. *)
Theorem scheduling_payload_entries
    (fields : list FieldDescriptor.t) (cs : list (string * string)) :
  plain_names fields →
  Forall (SchedulingForm.click fields) cs →
  let selections := SchedulingForm.after_clicks cs in
  SchedulingForm.render fields selections
  = Some ((λ f, (FieldDescriptor.label f,
                 (λ o, (o, bool_decide
                             (o ∈ SchedulingForm.current selections
                                    (FieldDescriptor.name f))))
                   <$> default [] (FieldDescriptor.options f))) <$> fields)
  ∧ (∀ name,
        NoDup (SchedulingForm.current selections name)
        ∧ ∀ o, o ∈ SchedulingForm.current selections name
               → SchedulingForm.offered fields name o)
  ∧ (is_Some (SchedulingForm.handleSubmit fields selections)
     ↔ ∀ f, f ∈ fields →
            SchedulingForm.current selections (FieldDescriptor.name f) ≠ [])
  ∧ (∀ data, SchedulingForm.handleSubmit fields selections = Some data →
        data = FArr <$> selections
        ∧ dom data = list_to_set (FieldDescriptor.name <$> fields)
        ∧ (∀ k v, data !! k = Some v → ∃ l, v = FArr l ∧ l ≠ [] ∧ NoDup l)).
Proof.
  intros Hplain Hcs selections.
  assert (Hkeys : ∀ k, is_Some (selections !! k) →
                       k ∈ FieldDescriptor.name <$> fields).
  { intros k Hk. apply after_clicks_keys, list_elem_of_fmap in Hk as (c & -> & Hc).
    rewrite Forall_forall in Hcs. destruct (Hcs c Hc) as (f & Hf & <- & _).
    apply list_elem_of_fmap. by exists f. }
  split_and!.
  - by apply render_plain.
  - by apply tidy_after_clicks.
  - unfold SchedulingForm.handleSubmit.
    rewrite <- (isValid_spec fields selections Hplain).
    destruct (SchedulingForm.isValid fields selections);
      split; [done|eauto|by intros [? [=]]|done].
  - unfold SchedulingForm.handleSubmit. intros data.
    destruct (SchedulingForm.isValid fields selections) eqn:Hv; [|done].
    intros [= <-].
    pose proof (proj1 (isValid_spec fields selections Hplain) Hv) as Hne.
    split_and!; [done| |].
    + apply set_eq. intros k.
      rewrite dom_fmap, elem_of_dom, elem_of_list_to_set. split; [apply Hkeys|].
      intros Hk. apply list_elem_of_fmap in Hk as (f & -> & Hf).
      specialize (Hne f Hf). unfold SchedulingForm.current in Hne.
      destruct (selections !! FieldDescriptor.name f); [eauto|done].
    + intros k v. rewrite lookup_fmap.
      destruct (selections !! k) as [l|] eqn:El; [|done].
      intros [= <-]. exists l.
      assert (Hcur : SchedulingForm.current selections k = l).
      { unfold SchedulingForm.current. by rewrite El. }
      split_and!; [done| |].
      * assert (k ∈ FieldDescriptor.name <$> fields) as Hk by (apply Hkeys; eauto).
        apply list_elem_of_fmap in Hk as (f & -> & Hf).
        rewrite <- Hcur. by apply Hne.
      * rewrite <- Hcur. by apply (tidy_after_clicks fields cs Hcs k).
Qed.

Lemma scheduling_payload_entries_witness :
  dom (FArr <$> SchedulingForm.after_clicks some_clicks)
  = list_to_set (FieldDescriptor.name <$> [days_field; times_field]).
Proof.
  assert (Hclicks : Forall (SchedulingForm.click [days_field; times_field]) some_clicks).
  { repeat apply Forall_cons_2; [..|apply Forall_nil_2].
    - exists days_field. split_and!; [apply list_elem_of_here|done|apply list_elem_of_here].
    - exists days_field. split_and!; [apply list_elem_of_here|done|].
      do 2 apply list_elem_of_further. apply list_elem_of_here.
    - exists days_field. split_and!; [apply list_elem_of_here|done|apply list_elem_of_here].
    - exists times_field.
      split_and!; [apply list_elem_of_further, list_elem_of_here|done|apply list_elem_of_here]. }
  assert (Hplain : plain_names [days_field; times_field]) by (by repeat constructor).
  destruct (scheduling_payload_entries [days_field; times_field] some_clicks Hplain Hclicks)
    as (_ & _ & _ & Hdata).
  by apply (Hdata (FArr <$> SchedulingForm.after_clicks some_clicks)).
Defined.

Section OptionTable.

(** The own properties of the option table. *)
Lemma field_options_own (name : string) (table : list (string * list string)) :
  Script.field_options name table
  = (list_to_map table : gmap string (list string)) !! name.
Proof.
  induction table as [|[k v] table IH]; [done|]. simpl.
  destruct (String.eqb_spec name k) as [->|Hne].
  - by rewrite lookup_insert_eq.
  - by rewrite lookup_insert_ne.
Qed.

Lemma field_options_undefined (name : string) :
  ScriptControls.FIELD_OPTIONS_read name = JsObject.Undefined →
  Script.field_options name Script.FIELD_OPTIONS = None.
Proof.
  unfold ScriptControls.FIELD_OPTIONS_read, JsObject.get.
  rewrite field_options_own.
  destruct (_ !! name); [done|]. done.
Qed.

(** Where [createFieldInput] returns, it returns the control of the
    model; and it returns for every field whose name is not inherited. *)
Lemma createFieldInput_run_Some (f : FieldDescriptor.t) (el : Script.element) :
  ScriptControls.createFieldInput_run f = Some el → el = Script.createFieldInput f.
Proof.
  unfold ScriptControls.createFieldInput_run, Script.createFieldInput.
  destruct (String.eqb (FieldDescriptor.type f) "multi_select"
            && Js.nonempty (FieldDescriptor.options f)); [by intros [= <-]|].
  unfold ScriptControls.FIELD_OPTIONS_read, JsObject.get.
  rewrite field_options_own.
  destruct (list_to_map Script.FIELD_OPTIONS !! FieldDescriptor.name f) as [options|].
  { simpl. intros [= <-]. by rewrite orb_true_r. }
  destruct (JsObject.inherited_length (FieldDescriptor.name f) JsObject.prototype);
    [done|].
  cbn [default]. rewrite bool_decide_eq_false_2 by (by intros [? ?]).
  rewrite orb_false_r.
  by destruct (String.eqb (FieldDescriptor.type f) "select"); intros [= <-].
Qed.

Lemma createFieldInput_run_plain (f : FieldDescriptor.t) :
  JsObject.inherited (FieldDescriptor.name f) = false →
  ScriptControls.createFieldInput_run f = Some (Script.createFieldInput f).
Proof.
  intros Hplain.
  destruct (ScriptControls.createFieldInput_run f) as [el|] eqn:E.
  { by rewrite (createFieldInput_run_Some f el E). }
  exfalso. revert E. unfold ScriptControls.createFieldInput_run.
  destruct (String.eqb (FieldDescriptor.type f) "multi_select"
            && Js.nonempty (FieldDescriptor.options f)); [done|].
  unfold ScriptControls.FIELD_OPTIONS_read, JsObject.get.
  destruct (list_to_map Script.FIELD_OPTIONS !! FieldDescriptor.name f); [done|].
  unfold JsObject.inherited in Hplain.
  destruct (JsObject.inherited_length (FieldDescriptor.name f) JsObject.prototype);
    [done|].
  by destruct (String.eqb (FieldDescriptor.type f) "select").
Qed.

End OptionTable.

(** X8. In a multi-field form of the plain script none of whose fields
    is named like a property of [Object.prototype], the submit handler
    reads its controls from an object keyed by field name.  A control
    is made for every field without an exception; the object has one
    entry per distinct name; and where two fields share a name, the
    page draws a control for each, but the entry is the control of the
    later one, so what is entered in the earlier one is never read. *)
Theorem make_inputs_last_wins (fields : list FieldDescriptor.t) :
  plain_names fields →
  Forall (λ f, ScriptControls.createFieldInput_run f = Some (Script.createFieldInput f))
    fields
  ∧ (∀ n, Script.make_inputs fields !! n
        = Script.createFieldInput
            <$> last (filter (λ f, FieldDescriptor.name f = n) fields))
  ∧ dom (Script.make_inputs fields) = list_to_set (FieldDescriptor.name <$> fields)
  ∧ (∀ before f between g after,
        fields = before ++ f :: between ++ g :: after →
        FieldDescriptor.name f = FieldDescriptor.name g →
        Forall (λ h, FieldDescriptor.name h ≠ FieldDescriptor.name g) after →
        Script.make_inputs fields !! FieldDescriptor.name f
        = Some (Script.createFieldInput g)).
Proof.
  intros Hplain.
  assert (Hlook : ∀ n, Script.make_inputs fields !! n
            = Script.createFieldInput
                <$> last (filter (λ f, FieldDescriptor.name f = n) fields)).
  { intros n. apply (foldl_insert_last FieldDescriptor.name Script.createFieldInput). }
  split_and!; [|done| |].
  - eapply Forall_impl; [exact Hplain|]. apply createFieldInput_run_plain.
  - apply set_eq. intros n.
    rewrite elem_of_dom, elem_of_list_to_set, Hlook, fmap_is_Some, last_filter_Some.
    rewrite list_elem_of_fmap. split.
    + intros (f & Hf & <-). by exists f.
    + intros (f & -> & Hf). by exists f.
  - intros before f between g after -> Hname Hafter.
    rewrite Hlook, Hname.
    replace (before ++ f :: between ++ g :: after)
      with ((before ++ f :: between) ++ [g] ++ after)
      by (by rewrite <- app_assoc).
    assert (Hnone : filter (λ h, FieldDescriptor.name h = FieldDescriptor.name g) after = []).
    { clear -Hafter. induction Hafter as [|h after Hh _ IH]; [done|].
      by rewrite filter_cons_False. }
    rewrite filter_app, (filter_app _ [g]), Hnone, app_nil_r.
    rewrite filter_cons_True, filter_nil by done.
    by rewrite last_snoc.
Qed.

Lemma make_inputs_last_wins_witness :
  Script.make_inputs
    [FieldDescriptor.mk "site" "text" "Site" None;
     FieldDescriptor.mk "site" "select" "Closest site" None] !! "site"
  = Some (Script.Select [] "").
Proof.
  destruct (make_inputs_last_wins
              [FieldDescriptor.mk "site" "text" "Site" None;
               FieldDescriptor.mk "site" "select" "Closest site" None])
    as (_ & _ & _ & Hlast).
  - by repeat constructor.
  - apply (Hlast [] (FieldDescriptor.mk "site" "text" "Site" None) []
             (FieldDescriptor.mk "site" "select" "Closest site" None) []);
      [reflexivity|reflexivity|constructor].
Defined.

Section ScriptSubmit.

Lemma collect_filled_flag el : (Script.collect el).2 = ScriptControls.filled el.
Proof.
  destruct el as [boxes|choices v|v]; simpl; [done| |];
    (destruct v as [|c v]; [done|]); simpl;
    by destruct (Js.truthy (Js.trim (String c v))).
Qed.

End ScriptSubmit.

Section ScriptSubmitted.

Lemma multiFieldSubmit_iff (inputs : gmap string Script.element) (p : Payload) :
  Script.multiFieldSubmit inputs = Some p
  ↔ map_Forall (λ _ el, ScriptControls.filled el = true) inputs
    ∧ p = FieldMap (promised <$> inputs).
Proof.
  split.
  - intros H. split; [|by apply script_multi_field_payload].
    unfold Script.multiFieldSubmit in H. case_bool_decide as Hall; [|done].
    intros k el Hk. rewrite <- collect_filled_flag. by apply (Hall k el).
  - intros [Hall ->]. unfold Script.multiFieldSubmit.
    rewrite bool_decide_eq_true_2.
    + f_equal. f_equal. apply map_eq. intros k.
      rewrite lookup_omap, lookup_fmap.
      destruct (inputs !! k) as [el|] eqn:E; [|done]. simpl.
      apply collect_filled. rewrite collect_filled_flag. by apply (Hall k el).
    + intros k el Hk. rewrite collect_filled_flag. by apply (Hall k el).
Qed.

End ScriptSubmitted.

(** X9. A multi-field form of the plain script is sent exactly when every
    check-box group has a ticked box and every other control a value that
    is not blank; what is sent then has one entry per control, the ticked
    values of a group and the trimmed value of any other control. *)
Theorem script_multi_field_submission
    (inputs : gmap string Script.element) (p : Payload) :
  Script.multiFieldSubmit inputs = Some p
  ↔ map_Forall (λ _ el, ScriptControls.filled el = true) inputs
    ∧ p = FieldMap (promised <$> inputs).
Proof. apply multiFieldSubmit_iff. Qed.

(** X10. A field of type "select" for which the read of the script's
    option table finds nothing, neither an entry of the table nor an
    inherited property, gets a dropdown without choices, whatever
    options its descriptor carries; whatever the participant enters
    elsewhere, a form with such a field is never sent. *)
Theorem select_without_table_entry_blocks_form
    (f : FieldDescriptor.t) (inputs : gmap string Script.element)
    (el : Script.element) :
  FieldDescriptor.type f = "select" →
  ScriptControls.FIELD_OPTIONS_read (FieldDescriptor.name f) = JsObject.Undefined →
  inputs !! FieldDescriptor.name f = Some el →
  ScriptControls.entered (Script.createFieldInput f) el →
  ScriptControls.createFieldInput_run f = Some (Script.Select [] "")
  ∧ Script.createFieldInput f = Script.Select [] ""
  ∧ Script.multiFieldSubmit inputs = None.
Proof.
  intros Hty Hopt Hin Hent.
  assert (Hrun : ScriptControls.createFieldInput_run f = Some (Script.Select [] "")).
  { unfold ScriptControls.createFieldInput_run. by rewrite Hty, Hopt. }
  assert (Hc : Script.createFieldInput f = Script.Select [] "").
  { symmetry. by apply createFieldInput_run_Some. }
  split_and!; [done|done|].
  rewrite Hc in Hent. inversion Hent as [| choices v0 v Hv |]; subst.
  destruct Hv as [->|Hv]; [|by apply elem_of_nil in Hv].
  destruct (Script.multiFieldSubmit inputs) as [p|] eqn:E; [|done].
  apply multiFieldSubmit_iff in E as [Hall _].
  by specialize (Hall _ _ Hin).
Qed.

Lemma select_without_table_entry_blocks_form_witness :
  Script.multiFieldSubmit
    {["state_of_residence" := Script.Select [] ""]} = None.
Proof.
  apply (select_without_table_entry_blocks_form
           (FieldDescriptor.mk "state_of_residence" "select" "State"
              (Some ["NC"; "SC"]))
           {["state_of_residence" := Script.Select [] ""]}
           (Script.Select [] "")).
  - reflexivity.
  - reflexivity.
  - apply lookup_singleton_eq.
  - apply ScriptControls.entered_select. by left.
Defined.

(** ** Runs of the hook *)

Section HookRuns.
Import UseChat UseChatTrace.

Lemma shows_setIsLoading o b st : shows o st → shows o (setIsLoading b st).
Proof. by destruct o. Qed.

Lemma shows_addMessage o r c st : shows o st → shows o (addMessage r c st).
Proof. by destruct o. Qed.

Lemma shows_handleResponse response st : shows (Some response) (handleResponse response st).
Proof.
  unfold handleResponse.
  by destruct (Js.truthy (ChatResponse.message response)).
Qed.

Lemma shows_sendMessage_begin o content st :
  shows o st → shows o (sendMessage_begin content st).1.
Proof.
  intros H. unfold sendMessage_begin.
  destruct (sessionId st); [|done]. destruct (blocked st); [done|].
  by apply shows_setIsLoading, shows_addMessage.
Qed.

Lemma shows_submitForm_begin o formData st :
  shows o st → shows o (submitForm_begin formData st).1.
Proof.
  intros H. unfold submitForm_begin.
  destruct (sessionId st); [|done]. destruct (blocked st); [done|].
  by apply shows_setIsLoading, shows_addMessage.
Qed.

Lemma latest_app o l k : latest o (l ++ k) = latest (latest o l) k.
Proof.
  unfold latest. destruct k as [|x k] using rev_ind.
  - by rewrite app_nil_r.
  - by rewrite app_assoc, !last_snoc.
Qed.

Lemma react_shows o m e :
  shows o (hook m) →
  shows (latest o (handled m [e])) (hook (react m e).1).
Proof.
  intros H. destruct e as [content|formData|out].
  - pose proof (shows_sendMessage_begin o content (hook m) H) as H'.
    simpl. by destruct (sendMessage_begin content (hook m)).
  - pose proof (shows_submitForm_begin o formData (hook m) H) as H'.
    simpl. by destruct (submitForm_begin formData (hook m)).
  - destruct (pending m) as [c|] eqn:Ep.
    + destruct out as [response|].
      * assert (Hh : handled m [Reply (Resolved response)] = [response])
          by (simpl; by rewrite Ep).
        assert (Hr : hook (react m (Reply (Resolved response))).1
                     = setIsLoading false (handleResponse response (hook m)))
          by (simpl; rewrite Ep; by destruct c).
        rewrite Hh, Hr.
        apply (shows_setIsLoading (Some response)), shows_handleResponse.
      * assert (Hh : handled m [Reply Rejected] = []) by done.
        assert (Hr : ∃ text, hook (react m (Reply Rejected)).1
                     = setIsLoading false (addMessage Assistant text (hook m)))
          by (simpl; rewrite Ep; destruct c; eauto).
        destruct Hr as [text Hr]. rewrite Hh, Hr.
        by apply (shows_setIsLoading o), shows_addMessage.
    + assert (Hh : handled m [Reply out] = []) by (simpl; rewrite ?Ep; by destruct out).
      assert (Hr : hook (react m (Reply out)).1 = hook m) by (simpl; by rewrite Ep).
      by rewrite Hh, Hr.
Qed.

Lemma handled_cons m e es :
  handled m (e :: es) = handled m [e] ++ handled (react m e).1 es.
Proof. simpl. by rewrite app_nil_r. Qed.

Lemma run_cons_machine m e es : (run m (e :: es)).1 = (run (react m e).1 es).1.
Proof.
  simpl. destruct (react m e) as [m' rq]. simpl.
  by destruct (run m' es) as [m'' rqs].
Qed.

Lemma run_shows es : ∀ o m,
  shows o (hook m) → shows (latest o (handled m es)) (hook (run m es).1).
Proof.
  induction es as [|e es IH]; intros o m H; [done|].
  rewrite handled_cons, latest_app, run_cons_machine.
  apply IH. by apply react_shows.
Qed.

End HookRuns.

(** X11. After any course of events the hook shows the response handled
    last: its session id, step, type, fields, options and done flag are
    those of that response, and before any response their initial values.
    A failed call, a message sent or a form submitted changes none of
    them. *)
Theorem hook_shows_last_response (es : list UseChat.event) :
  UseChatTrace.shows
    (last (UseChatTrace.handled UseChat.mount.1 es))
    (UseChat.hook (UseChat.run UseChat.mount.1 es).1).
Proof.
  pose proof (run_shows es None UseChat.mount.1) as H.
  assert (Hl : ∀ l, UseChatTrace.latest None l = last l).
  { intros l. unfold UseChatTrace.latest. by destruct (last l). }
  rewrite Hl in H. by apply H.
Qed.

(** X12. The guard of the hook's [sendMessage] and [submitForm] looks
    at the state that the render which made the function saw, not at the
    state at the call.  So two calls made by one render that saw a
    session id, no call awaited and the conversation open both issue a
    turn request with that session id, and both messages are added to
    the list, although the first call has set [isLoading]; a form
    submitted after the first call goes out as well.  The functions of a
    render that has seen [isLoading] set issue nothing. *)
Theorem hook_calls_judged_by_their_render
    (render : UseChat.state) (sid c1 c2 : string) (formData : gmap string FormValue) :
  UseChat.sessionId render = Some sid →
  UseChat.blocked render = false →
  let first := UseChatRender.sendMessage_from render c1 render in
  let second := UseChatRender.sendMessage_from render c2 first.1 in
  first.2 = Some (PostChat (ChatRequest.mk sid (Plain c1)))
  ∧ UseChat.isLoading first.1 = true
  ∧ second.2 = Some (PostChat (ChatRequest.mk sid (Plain c2)))
  ∧ UseChat.messages second.1
    = UseChat.messages render ++ [mkMessage User c1; mkMessage User c2]
  ∧ (UseChatRender.submitForm_from render formData first.1).2
    = Some (PostChat (ChatRequest.mk sid (FieldMap formData)))
  ∧ (UseChat.sendMessage_begin c2 first.1).2 = None
  ∧ (UseChat.submitForm_begin formData first.1).2 = None.
Proof.
  intros Hsid Hopen first second. subst first second.
  unfold UseChatRender.sendMessage_from, UseChatRender.submitForm_from.
  rewrite Hsid, Hopen. simpl.
  split_and!; try done.
  - by rewrite <- app_assoc.
  - unfold UseChat.sendMessage_begin, UseChat.blocked. simpl.
    rewrite Hsid, orb_true_r. done.
  - unfold UseChat.submitForm_begin, UseChat.blocked. simpl.
    rewrite Hsid, orb_true_r. done.
Qed.

Lemma hook_calls_judged_by_their_render_witness :
  (UseChatRender.sendMessage_from greeted "yes"
     (UseChatRender.sendMessage_from greeted "yes" greeted).1).2
  = Some (PostChat (ChatRequest.mk "s-1" (Plain "yes"))).
Proof.
  destruct (hook_calls_judged_by_their_render greeted "s-1" "yes" "yes" ∅ eq_refl eq_refl)
    as (_ & _ & Hsecond & _).
  exact Hsecond.
Defined.

Section ScriptRuns.
Import Script ScriptTrace.

Lemma renderResponse_keeps_sessionId data st :
  sessionId (renderResponse data st) = sessionId st.
Proof.
  unfold renderResponse.
  by repeat match goal with |- context [if ?b then _ else _] => destruct b end.
Qed.

Lemma sendMessage_end_keeps_sessionId o st :
  sessionId (sendMessage_end o st) = sessionId st.
Proof. destruct o; simpl; [by rewrite renderResponse_keeps_sessionId|done]. Qed.

Lemma script_run_cons m e es : (run m (e :: es)).1 = (run (react m e).1 es).1.
Proof.
  simpl. destruct (react m e) as [m' rq]. simpl.
  by destruct (run m' es) as [m'' rqs].
Qed.

Lemma react_anchored m e : anchored m → anchored (react m e).1.
Proof.
  unfold anchored. intros H. destruct e as [text|o|o].
  - assert (Hh : handled (react m (SendMessage text)).1 = handled m).
    { simpl. by destruct (sendMessage_begin text (page m)). }
    assert (Hs : sessionId (page (react m (SendMessage text)).1) = sessionId (page m)).
    { simpl. pose proof (sendMessage_begin_keeps text (page m)) as [_ Hk].
      by destruct (sendMessage_begin text (page m)). }
    assert (Hp : startPending (react m (SendMessage text)).1 = startPending m).
    { simpl. by destruct (sendMessage_begin text (page m)). }
    rewrite Hh, Hs, Hp. destruct (handled m) as [|first rest]; [|done].
    destruct H as [Hnone Hz]. split; [done|].
    simpl. unfold sendMessage_begin. by rewrite Hnone.
  - simpl. destruct (startPending m) eqn:Ep; simpl.
    + destruct (handled m) as [|first rest]; [|by destruct H as [_ [=]]].
      destruct H as [Hnone Hz]. destruct o as [data|]; simpl.
      * by rewrite renderResponse_keeps_sessionId.
      * done.
    + destruct (handled m) as [|first rest]; destruct H; by split.
  - simpl. destruct (turnsPending m) as [|n] eqn:Et; simpl.
    + destruct (handled m) as [|first rest]; destruct H; by split.
    + destruct (handled m) as [|first rest]; [by destruct H as [_ [=]]|].
      destruct H as [Hs Hp]. simpl. by rewrite sendMessage_end_keeps_sessionId.
Qed.

Lemma run_anchored es : ∀ m, anchored m → anchored (run m es).1.
Proof.
  induction es as [|e es IH]; intros m H; [done|].
  rewrite script_run_cons. by apply IH, react_anchored.
Qed.

End ScriptRuns.

(** X13. The plain script takes its session id from the reply to
    [startSession] and never changes it: after any course of events the
    id held is that of the first response handled, and every turn
    request carries it, whatever session ids later responses carry. *)
Theorem script_session_id_is_fixed
    (es : list Script.event) (e : Script.event) (rq : Request) :
  let m := (Script.run Script.load.1 es).1 in
  Script.sessionId (Script.page m)
  = ChatResponse.session_id <$> head (Script.handled m)
  ∧ ((Script.react m e).2 = Some rq →
       ∃ first text,
         head (Script.handled m) = Some first
         ∧ rq = PostChat (ChatRequest.mk (ChatResponse.session_id first) text)).
Proof.
  intros m.
  assert (Ha : ScriptTrace.anchored m) by (by apply run_anchored).
  unfold ScriptTrace.anchored in Ha.
  assert (Hs : Script.sessionId (Script.page m)
               = ChatResponse.session_id <$> head (Script.handled m)).
  { by destruct (Script.handled m); destruct Ha. }
  split; [done|].
  destruct e as [text|o|o]; simpl.
  - unfold Script.sendMessage_begin. rewrite Hs.
    destruct (head (Script.handled m)) as [first|]; simpl; [|done].
    destruct (_ || _); [done|]. simpl. intros [= <-]. by exists first, text.
  - by destruct (Script.startPending m).
  - by destruct (Script.turnsPending m).
Qed.

Lemma script_session_id_is_fixed_witness :
  ∃ first text,
    head (Script.handled
            (Script.run Script.load.1
               [Script.StartReply (Resolved greeting_response)]).1) = Some first
    ∧ PostChat (ChatRequest.mk "s-1" (Plain "yes"))
      = PostChat (ChatRequest.mk (ChatResponse.session_id first) text).
Proof.
  apply (script_session_id_is_fixed
           [Script.StartReply (Resolved greeting_response)]
           (Script.SendMessage (Plain "yes"))).
  reflexivity.
Defined.

Section Retry.
Import UseChat.

Lemma renderForm_same_conversation p q :
  isLoading p = isLoading q → currentStep p = currentStep q →
  responseType p = responseType q → fields p = fields q → options p = options q →
  ChatInterface.renderForm p = ChatInterface.renderForm q.
Proof.
  intros Hl Hc Hr Hf Ho. unfold ChatInterface.renderForm. cbv zeta.
  by rewrite Hl, Hc, Hr, Hf, Ho.
Qed.

End Retry.

(** X14. When a turn call fails, the hook is back where it was but for
    two more bubbles (the participant's text and the apology): the same
    form or text bar is shown again, and sending the same text, or
    submitting the same form, issues the same request once more. *)
Theorem hook_retry_after_failure (st : UseChat.state) (rq : Request) :
  (∀ content,
      (UseChat.sendMessage_begin content st).2 = Some rq →
      let st' := UseChat.sendMessage_end Rejected (UseChat.sendMessage_begin content st).1 in
      UseChat.messages st'
      = UseChat.messages st
        ++ [mkMessage User content;
            mkMessage Assistant "Sorry, there was an error. Please try again."]
      ∧ ChatInterface.renderForm st' = ChatInterface.renderForm st
      ∧ ChatInterface.showTextInput st' = ChatInterface.showTextInput st
      ∧ (UseChat.sendMessage_begin content st').2 = Some rq)
  ∧ (∀ formData,
      (UseChat.submitForm_begin formData st).2 = Some rq →
      let st' := UseChat.submitForm_end Rejected (UseChat.submitForm_begin formData st).1 in
      ChatInterface.renderForm st' = ChatInterface.renderForm st
      ∧ ChatInterface.showTextInput st' = ChatInterface.showTextInput st
      ∧ (UseChat.submitForm_begin formData st').2 = Some rq).
Proof.
  split.
  - intros content. unfold UseChat.sendMessage_begin at 1 2.
    destruct (UseChat.sessionId st) as [sid|] eqn:Es; [|done].
    destruct (UseChat.blocked st) eqn:Eb; [done|]. simpl. intros [= <-].
    unfold UseChat.blocked in Eb. rewrite Es in Eb.
    apply orb_false_iff in Eb as [Eb Ed]. apply orb_false_iff in Eb as [Et El].
    split_and!.
    + by rewrite <- app_assoc.
    + apply renderForm_same_conversation; simpl; congruence.
    + unfold ChatInterface.showTextInput. simpl. by rewrite El.
    + unfold UseChat.sendMessage_begin, UseChat.blocked. simpl.
      by rewrite Es, Et, Ed.
  - intros formData. unfold UseChat.submitForm_begin at 1 2.
    destruct (UseChat.sessionId st) as [sid|] eqn:Es; [|done].
    destruct (UseChat.blocked st) eqn:Eb; [done|]. simpl. intros [= <-].
    unfold UseChat.blocked in Eb. rewrite Es in Eb.
    apply orb_false_iff in Eb as [Eb Ed]. apply orb_false_iff in Eb as [Et El].
    split_and!.
    + apply renderForm_same_conversation; simpl; congruence.
    + unfold ChatInterface.showTextInput. simpl. by rewrite El.
    + unfold UseChat.submitForm_begin, UseChat.blocked. simpl.
      by rewrite Es, Et, Ed.
Qed.

Lemma hook_retry_after_failure_witness :
  (UseChat.submitForm_begin {["zip_code" := FStr "27601"]}
     (UseChat.submitForm_end Rejected
        (UseChat.submitForm_begin {["zip_code" := FStr "27601"]} ready_state).1)).2
  = Some (PostChat (ChatRequest.mk "s-1" (FieldMap {["zip_code" := FStr "27601"]}))).
Proof.
  destruct (hook_retry_after_failure ready_state
              (PostChat (ChatRequest.mk "s-1" (FieldMap {["zip_code" := FStr "27601"]}))))
    as [_ Hform].
  apply (Hform {["zip_code" := FStr "27601"]}). reflexivity.
Defined.

(** X15. The chat page never offers the text bar and a form together,
    and offers neither while a call is awaited or when the response type
    is "end".  Once the conversation is done the text bar is gone; a form
    may still be on the page, but whatever is sent through it is
    dropped. *)
Theorem page_offers_one_control (p : UseChat.state) :
  (ChatInterface.showTextInput p = true → ChatInterface.renderForm p = None)
  ∧ (UseChat.isLoading p = true →
       ChatInterface.renderForm p = None ∧ ChatInterface.showTextInput p = false)
  ∧ (UseChat.responseType p = REnd →
       ChatInterface.renderForm p = None ∧ ChatInterface.showTextInput p = false)
  ∧ (UseChat.isDone p = true →
       ChatInterface.showTextInput p = false
       ∧ (∀ formData, UseChat.submitForm_begin formData p = (p, None))
       ∧ (∀ content, UseChat.sendMessage_begin content p = (p, None))).
Proof.
  unfold ChatInterface.showTextInput, ChatInterface.renderForm. cbv zeta.
  split_and!.
  - intros H. apply andb_true_iff in H as [H _]. apply andb_true_iff in H as [H _].
    destruct (UseChat.responseType p); try done. by rewrite orb_true_r.
  - intros ->. by rewrite !andb_false_r.
  - intros ->. simpl. by rewrite orb_true_r.
  - intros Hd. rewrite Hd. simpl. split_and!.
    + by rewrite andb_false_r.
    + intros formData. unfold UseChat.submitForm_begin, UseChat.blocked.
      rewrite Hd, orb_true_r. by destruct (UseChat.sessionId p).
    + intros content. unfold UseChat.sendMessage_begin, UseChat.blocked.
      rewrite Hd, orb_true_r. by destruct (UseChat.sessionId p).
Qed.

Lemma page_offers_one_control_witness :
  ChatInterface.renderForm
    (UseChat.sendMessage_end (Resolved greeting_response) UseChat.initial) = None.
Proof.
  destruct (page_offers_one_control
              (UseChat.sendMessage_end (Resolved greeting_response) UseChat.initial))
    as (Hbar & _).
  apply Hbar. reflexivity.
Defined.

Section Highlights.
Import DataViewPanel.

Lemma changed_spec (previous new : gmap string (option string)) (k : string) :
  k ∈ changed previous new
  ↔ ∃ v, new !! k = Some (Some v) ∧ previous !! k ≠ Some (Some v).
Proof.
  unfold changed. rewrite elem_of_dom. split.
  - intros [x Hx]. apply map_lookup_filter_Some in Hx as [Hk [Hp Hn]]. simpl in *.
    destruct x as [v|]; [|done]. by exists v.
  - intros (v & Hk & Hp). exists (Some v).
    apply map_lookup_filter_Some. by split.
Qed.

Lemma changed_same (d : gmap string (option string)) : changed d d = ∅.
Proof.
  apply set_eq. intros k. rewrite changed_spec. split; [|by intros ?%not_elem_of_empty].
  intros (v & Hk & Hp). done.
Qed.

End Highlights.

(** X16. The data panel highlights, after a poll, exactly the fields whose
    new value is not null and differs from the value of the poll before
    (a field that is new counts as differing).  The first poll, a poll
    after a reply without lead data, and a poll that brings the same data
    again highlight nothing new; every successful poll makes its data the
    ones to compare with next. *)
Theorem panel_highlights_changed_fields :
  (∀ previous new k,
      k ∈ DataViewPanel.changed previous new
      ↔ ∃ v, new !! k = Some (Some v) ∧ previous !! k ≠ Some (Some v))
  ∧ (∀ newData st,
      DataViewPanel.previousData st = None →
      DataViewPanel.updatedFields (DataViewPanel.fetch_ok newData st)
      = DataViewPanel.updatedFields st)
  ∧ (∀ newData st,
      DataViewPanel.updatedFields
        (DataViewPanel.fetch_ok newData (DataViewPanel.fetch_ok newData st))
      = DataViewPanel.updatedFields (DataViewPanel.fetch_ok newData st))
  ∧ (∀ newData st,
      DataViewPanel.previousData (DataViewPanel.fetch_ok newData st)
      = DataViewPanel.lead_data newData)
  ∧ (∀ newData st previous new,
      DataViewPanel.previousData st = Some previous →
      DataViewPanel.lead_data newData = Some new →
      DataViewPanel.changed previous new ≠ ∅ →
      DataViewPanel.updatedFields (DataViewPanel.fetch_ok newData st)
      = DataViewPanel.changed previous new).
Proof.
  split_and!.
  - apply changed_spec.
  - intros newData st Hp. unfold DataViewPanel.fetch_ok. by rewrite Hp.
  - intros newData st. unfold DataViewPanel.fetch_ok at 1. simpl.
    destruct (DataViewPanel.lead_data newData) as [new|]; [|done].
    by rewrite changed_same, decide_True.
  - done.
  - intros newData st previous new Hp Hn Hc. unfold DataViewPanel.fetch_ok.
    simpl. by rewrite Hp, Hn, decide_False.
Qed.

Lemma panel_highlights_changed_fields_witness :
  let first := DataViewPanel.mkResponse "s-1" (Some 7%Z) "collecting_group:contact"
                 (Some {["zip_code" := None]}) ["zip_code"] [] in
  let second := DataViewPanel.mkResponse "s-1" (Some 7%Z) "prescreen:smoker"
                  (Some {["zip_code" := Some "27601"]}) [] [] in
  DataViewPanel.updatedFields
    (DataViewPanel.fetch_ok second
       (DataViewPanel.fetch_ok first DataViewPanel.initial))
  = DataViewPanel.changed {["zip_code" := None]} {["zip_code" := Some "27601"]}.
Proof.
  intros first second.
  destruct panel_highlights_changed_fields as (Hspec & _ & _ & _ & Hnew).
  apply Hnew; [reflexivity|reflexivity|].
  intros Hempty.
  assert (Hin : "zip_code" ∈ DataViewPanel.changed
                  {["zip_code" := None]} {["zip_code" := Some "27601"]}).
  { apply Hspec. exists "27601". split; [apply lookup_singleton_eq|].
    by rewrite lookup_singleton_eq. }
  rewrite Hempty in Hin. by apply not_elem_of_empty in Hin.
Defined.

Section TwoClients.

Lemma renderResponse_log data page :
  Script.log (Script.renderResponse data page)
  = Script.log page
    ++ [if Script.is_form data && Js.nonempty (ChatResponse.fields data)
        then Script.MultiFieldForm (ChatResponse.message data)
               (Script.make_inputs (default [] (ChatResponse.fields data)))
        else if Script.is_form data
                && (Js.truthy_opt (ChatResponse.field data)
                    || bool_decide (is_Some (ChatResponse.options data)))
        then Script.addFormMessage (ChatResponse.message data)
               (ChatResponse.field data) (ChatResponse.options data)
        else Script.Said Assistant (Plain (ChatResponse.message data))].
Proof.
  unfold Script.renderResponse.
  destruct (ChatResponse.done data);
    by repeat match goal with |- context [if ?b then _ else _] => destruct b end.
Qed.

End TwoClients.

(** X17. For a form response whose step has no form of its own and
    whose fields, if any, are not named like properties of
    [Object.prototype], the two clients choose matching controls: where
    the React page shows the profile form for the fields, the plain
    script makes a control for each of them without an exception and
    shows a multi-field form built from the same fields (its submit
    handler reading one control per field name); where the page
    shows the radio form for the options, so does the script; and where
    the page shows no form, the script shows no choice either: a single
    text input when the response names a field, and otherwise just the
    message. *)
Theorem clients_choose_matching_controls
    (data : ChatResponse.t) (st : UseChat.state) (page : Script.state) :
  ChatResponse.type data = RForm →
  step_with_own_form (ChatResponse.step data) = false →
  plain_response data →
  let message := ChatResponse.message data in
  let entry := last (Script.log (Script.renderResponse data page)) in
  match ChatInterface.renderForm (UseChat.sendMessage_end (Resolved data) st) with
  | Some (ChatInterface.ProfileFormEl fs) =>
      ChatResponse.fields data = Some fs
      ∧ Forall (λ f, ScriptControls.createFieldInput_run f
                     = Some (Script.createFieldInput f)) fs
      ∧ entry = Some (Script.MultiFieldForm message (Script.make_inputs fs))
  | Some (ChatInterface.PrescreenFormEl os) =>
      ChatResponse.options data = Some os
      ∧ entry = Some (Script.RadioForm message os)
  | Some _ => False
  | None =>
      entry = Some (Script.BareForm message)
      ∨ entry = Some (Script.Said Assistant (Plain message))
      ∨ ∃ f, ChatResponse.field data = Some f ∧ f ≠ ""
             ∧ entry = Some (Script.InputForm message f)
  end.
Proof.
  intros Hty Hstep Hplain message entry. subst message entry.
  assert (Hruns : Forall (λ f, ScriptControls.createFieldInput_run f
                               = Some (Script.createFieldInput f))
                    (default [] (ChatResponse.fields data))).
  { eapply Forall_impl; [exact Hplain|]. apply createFieldInput_run_plain. }
  clear Hplain.
  destruct (settled_after_turn data st) as (_ & Hl & Hc & Hr & Hf & Ho & _).
  rewrite renderForm_generic by by rewrite Hc.
  unfold generic_form. rewrite Hl, Hr, Hf, Ho, Hty. simpl.
  rewrite renderResponse_log, last_snoc.
  unfold Script.is_form, Script.addFormMessage. rewrite Hty. simpl.
  destruct (ChatResponse.fields data) as [[|f fs]|];
    destruct (ChatResponse.options data) as [[|o os]|];
    destruct (ChatResponse.field data) as [[|c fd]|]; simpl; eauto 10.
  all: right; right; eexists; split_and!; [done|done|done].
Qed.

Lemma clients_choose_matching_controls_witness :
  let data := ChatResponse.mk "s-1" "Do you smoke?" RForm "screening" None None
                (Some ["Yes"; "No"]) false in
  ChatResponse.options data = Some ["Yes"; "No"]
  ∧ last (Script.log (Script.renderResponse data Script.initial))
    = Some (Script.RadioForm "Do you smoke?" ["Yes"; "No"]).
Proof.
  exact (clients_choose_matching_controls
           (ChatResponse.mk "s-1" "Do you smoke?" RForm "screening" None None
              (Some ["Yes"; "No"]) false)
           UseChat.initial Script.initial eq_refl eq_refl (Forall_nil_2 _)).
Defined.

(** X18. In the plain script every response whose fields, if any, are
    not named like properties of [Object.prototype] is rendered to the
    end (no control raises while it is made); it adds exactly one entry
    to the message list, and leaves the text input enabled exactly when
    the response does not end the conversation.  A failed turn enables
    the input again, even in a conversation that has ended; the script
    still sends nothing then, and in a conversation that has not ended
    the same text can be sent again. *)
Theorem script_input_after_a_turn (page : Script.state) :
  (∀ data,
      plain_response data →
      Forall (λ f, ScriptControls.createFieldInput_run f
                   = Some (Script.createFieldInput f))
        (default [] (ChatResponse.fields data))
      ∧ length (Script.log (Script.renderResponse data page))
        = S (length (Script.log page))
      ∧ Script.inputEnabled (Script.renderResponse data page)
        = negb (ChatResponse.done data))
  ∧ Script.inputEnabled (Script.sendMessage_end Rejected page) = true
  ∧ (Script.conversationDone page = true →
       ∀ text, Script.sendMessage_begin text (Script.sendMessage_end Rejected page)
               = (Script.sendMessage_end Rejected page, None))
  ∧ (∀ text rq,
       (Script.sendMessage_begin text page).2 = Some rq →
       (Script.sendMessage_begin text
          (Script.sendMessage_end Rejected (Script.sendMessage_begin text page).1)).2
       = Some rq).
Proof.
  split_and!.
  - intros data Hplain. split_and!.
    + eapply Forall_impl; [exact Hplain|]. apply createFieldInput_run_plain.
    + rewrite renderResponse_log, length_app. simpl. lia.
    + unfold Script.renderResponse. by destruct (ChatResponse.done data).
  - done.
  - intros Hd text. unfold Script.sendMessage_begin. simpl.
    destruct (Script.sessionId page); [|done]. by rewrite Hd, orb_true_r.
  - intros text rq.
    assert (Hsame : ∀ st, Script.sessionId st = Script.sessionId page →
                          Script.conversationDone st = Script.conversationDone page →
                          (Script.sendMessage_begin text st).2
                          = (Script.sendMessage_begin text page).2).
    { intros st Hs Hc. unfold Script.sendMessage_begin. rewrite Hs, Hc.
      destruct (Script.sessionId page); [|done]. by destruct (_ || _). }
    intros Hrq. rewrite Hsame; [done| |].
    + simpl. apply sendMessage_begin_keeps.
    + simpl. apply sendMessage_begin_keeps.
Qed.

Lemma script_input_after_a_turn_witness :
  Script.sendMessage_begin (Plain "hello")
    (Script.sendMessage_end Rejected
       (Script.renderResponse farewell_response Script.initial))
  = (Script.sendMessage_end Rejected
       (Script.renderResponse farewell_response Script.initial), None).
Proof.
  destruct (script_input_after_a_turn
              (Script.renderResponse farewell_response Script.initial))
    as (_ & _ & Hdone & _).
  apply Hdone. reflexivity.
Defined.

(** X19. While the plain script holds a session id and the conversation
    has not ended, whatever its single text input or a multi-field form
    submits is sent to the server: the blank test of [sendMessage] never
    drops it.  A chosen radio option is sent unless it is blank. *)
Theorem script_submitted_forms_are_sent (page : Script.state) :
  Js.truthy_opt (Script.sessionId page) = true →
  Script.conversationDone page = false →
  (∀ value p, Script.inputSubmit value = Some p →
              is_Some (Script.sendMessage_begin p page).2)
  ∧ (∀ inputs p, Script.multiFieldSubmit inputs = Some p →
                 is_Some (Script.sendMessage_begin p page).2)
  ∧ (∀ option,
        Script.radioSubmit (Some option) = Some (Plain option)
        ∧ (is_Some (Script.sendMessage_begin (Plain option) page).2
           ↔ Js.trim option ≠ "")).
Proof.
  intros Hs Hd. split_and!.
  - intros value p. unfold Script.inputSubmit.
    destruct (Js.truthy (Js.trim value)) eqn:Et; [|done]. intros [= <-].
    apply sendMessage_begin_issues. split_and!; [done|done|].
    simpl. by rewrite trim_idem, Et.
  - intros inputs p Hp. apply multiFieldSubmit_iff in Hp as [_ ->].
    by apply sendMessage_begin_issues.
  - intros option. split; [done|].
    rewrite sendMessage_begin_issues. simpl.
    rewrite negb_false_iff, truthy_spec.
    split; [by intros (_ & _ & ?)|by intros ?; split_and!].
Qed.

Lemma script_submitted_forms_are_sent_witness :
  is_Some
    (Script.sendMessage_begin (Plain "27601")
       (Script.startSession_end (Resolved greeting_response) Script.initial)).2.
Proof.
  destruct (script_submitted_forms_are_sent
              (Script.startSession_end (Resolved greeting_response) Script.initial))
    as (Hinput & _); [reflexivity|reflexivity|].
  apply (Hinput " 27601 "). reflexivity.
Defined.

Lemma identity_form_submission_witness :
  ∃ data,
    IdentityForm.handleSubmit
      (IdentityForm.setPhone "9"
         (IdentityForm.setEmail "pat@example.com" IdentityForm.initial)) = Some data
    ∧ data !! "phone" = Some (FStr "9").
Proof.
  destruct (identity_form_submission
              (IdentityForm.setEmail "pat@example.com" IdentityForm.initial) "9")
    as [_ Hdata].
  eexists. split; [reflexivity|].
  destruct (Hdata _ eq_refl) as (_ & Hphone & _). exact Hphone.
Defined.
